(** * JSXGraph, src/Intersection.js: the Intersection construct

    A shallow embedding of [JXG.Intersection] (constructor, the three families
    of closures it installs, the prototype methods) and the properties of its
    existence-propagation protocol ([hideChild] / [showChild]).

    Objects live in a heap keyed by their identifier; [board.objects] is the
    set of identifiers currently registered on the board.  JavaScript object
    references ([this.p1], [this.descendants[el]], [board.objects[el]]) are
    identifiers into that one heap, so two references to the same object see
    each other's writes, as in the source.

    Every loop of the source runs over the keys of an object and touches only
    the entry of the current key, so the order of enumeration does not show
    in the result; the loops are folds over the elements of the key set.

    Not modelled: names and labels ([InterName1], [label.show]), the unused
    field [this.show], the board's generation of an identifier for an empty
    [Id], and the dummies [hasPoint] and [updateRenderer] of the prototype. *)

From stdpp Require Import gmap strings list fin_maps.

Module JXG.

(** ** Data *)

(** Element identifiers are JavaScript strings.  An identifier is also the
    address of the object in the heap: identifiers are taken to be unique
    object identities. *)
Abbreviation Id := string.

(** The [JXG.OBJECT_TYPE_*] constants the source compares against, and two
    more kinds of board elements, points and texts, that are none of them. *)
Inductive objType :=
  | OBJECT_TYPE_LINE
  | OBJECT_TYPE_ARROW
  | OBJECT_TYPE_CIRCLE
  | OBJECT_TYPE_ARC
  | OBJECT_TYPE_POINT
  | OBJECT_TYPE_TEXT
  | OBJECT_TYPE_INTERSECTION.

#[global] Instance objType_eq_dec : EqDecision objType.
Proof. solve_decision. Defined.

(** Coordinates are only ever copied from the solver into a point, never
    computed with; [Undefined] is a missing array slot. *)
Inductive coordinates :=
  | Undefined
  | UsrCoords (x y : Z).

(** Calls received from the outside world by an element, newest first. *)
Inductive call :=
  | HideElement
  | ShowElement
  | UpdateRenderer
  | Update.

(** A loosely typed constructor argument: nothing, a string, a live object. *)
Inductive parameter :=
  | PUndefined
  | PString (s : string)
  | PObject (i : Id).

(** What [this.intersect1] / [this.intersect2] hold after resolution:
    [undefined], the empty string, or an object. *)
Inductive reference :=
  | RUndefined
  | REmpty
  | RObject (i : Id).

#[global] Instance reference_eq_dec : EqDecision reference.
Proof. solve_decision. Defined.

(** Which closures the constructor installed on the instance.  [Prototype]
    is the instance that returned early and only has the prototype's dummy
    methods. *)
Inductive branch :=
  | Prototype
  | LineLine
  | CircleCircle
  | CircleLine.

#[global] Instance branch_eq_dec : EqDecision branch.
Proof. solve_decision. Defined.

(** The fields only an Intersection object has. *)
Record construct := Construct {
  kind : branch;
  real : bool;
  needsUpdate : bool;
  intersect1 : reference;
  intersect2 : reference;
  p : option Id;
  p1 : option Id;
  p2 : option Id
}.

(** A board element.  [visible] is [visProp['visible']], the keys of the
    JavaScript object [notExistingParents] form a set (its values are only
    stored, never read), and [descendants] is the key set of
    [this.descendants].  [displayed] is the renderer's state for the element
    and [calls] the history of external calls it received. *)
Record element := Element {
  type : objType;
  visible : bool;
  notExistingParents : gset Id;
  descendants : gset Id;
  coords : coordinates;
  fixed : bool;
  displayed : bool;
  calls : list call;
  data : option construct
}.

(** The array a circle solver returns: [coordinates[0]], [coordinates[1]],
    [coordinates[2]]. *)
Record solution := Solution {
  count : nat;
  sol1 : coordinates;
  sol2 : coordinates
}.

(** [board.algebra]: the external solvers.  Their answer depends on the
    current geometry of the parents, which is not part of this model; a
    change of geometry is a change of this field. *)
Record Algebra := {
  intersectLineLine : reference -> reference -> coordinates;
  intersectCircleCircle : reference -> reference -> solution;
  intersectCircleLine : reference -> reference -> solution
}.

Record board := Board {
  algebra : Algebra;
  heap : gmap Id element;
  objects : gset Id
}.

(** ** Field assignments *)

Definition set_visible (v : bool) (e : element) : element :=
  Element (type e) v (notExistingParents e) (descendants e) (coords e)
          (fixed e) (displayed e) (calls e) (data e).

Definition set_notExistingParents (s : gset Id) (e : element) : element :=
  Element (type e) (visible e) s (descendants e) (coords e)
          (fixed e) (displayed e) (calls e) (data e).

Definition set_coords (c : coordinates) (e : element) : element :=
  Element (type e) (visible e) (notExistingParents e) (descendants e) c
          (fixed e) (displayed e) (calls e) (data e).

Definition set_fixed (f : bool) (e : element) : element :=
  Element (type e) (visible e) (notExistingParents e) (descendants e)
          (coords e) f (displayed e) (calls e) (data e).

Definition set_data (d : option construct) (e : element) : element :=
  Element (type e) (visible e) (notExistingParents e) (descendants e)
          (coords e) (fixed e) (displayed e) (calls e) d.

Definition log_call (k : call) (e : element) : element :=
  Element (type e) (visible e) (notExistingParents e) (descendants e)
          (coords e) (fixed e) (displayed e) (k :: calls e) (data e).

Definition set_displayed (d : bool) (e : element) : element :=
  Element (type e) (visible e) (notExistingParents e) (descendants e)
          (coords e) (fixed e) d (calls e) (data e).

Definition set_real (r : bool) (c : construct) : construct :=
  Construct (kind c) r (needsUpdate c) (intersect1 c) (intersect2 c)
            (p c) (p1 c) (p2 c).

Definition set_needsUpdate (n : bool) (c : construct) : construct :=
  Construct (kind c) (real c) n (intersect1 c) (intersect2 c)
            (p c) (p1 c) (p2 c).

(** [o.f = v] on the object at address [i]. *)
Definition upd (i : Id) (f : element -> element) (b : board) : board :=
  Board (algebra b) (alter f i (heap b)) (objects b).

(** An assignment to one of the Intersection fields of [this]. *)
Definition upd_construct (f : construct -> construct) (e : element) : element :=
  set_data (f <$> data e) e.

(** ** External collaborators *)

(** Modelled from the spec: the hide operation of an element that is not an
    Intersection (GeometryElement.hideElement is not in this file).  It
    records [visible = false] and suppresses the rendering. *)
Definition hideElement (e : element) : element :=
  log_call HideElement (set_displayed false (set_visible false e)).

(** Modelled from the spec: the show operation of an element that is not an
    Intersection (GeometryElement.showElement is not in this file). *)
Definition showElement (e : element) : element :=
  log_call ShowElement (set_displayed true (set_visible true e)).

(** Modelled from the spec: [new JXG.Point(board, coords, id, name, show)]
    (Point.js is not in this file).  The point is registered on the board
    under [i]; it starts with the visibility it was given.  Names and labels
    are not modelled. *)
Definition new_Point (c : coordinates) (i : Id) (show : bool) (b : board) : board :=
  Board (algebra b)
        (<[i := Element OBJECT_TYPE_POINT show ∅ ∅ c false show [] None]> (heap b))
        ({[i]} ∪ objects b).

(** Modelled from the spec: [JXG.GetReferenceFromParameter(board, object)]
    (not in this file), the registry's resolveReference: a live object is
    itself, a string is looked up on the board, and what does not resolve is
    empty or absent. *)
Definition GetReferenceFromParameter (b : board) (x : parameter) : reference :=
  match x with
  | PUndefined => RUndefined
  | PObject i => RObject i
  | PString s =>
      if decide (s ∈ objects b) then RObject s
      else if decide (s = EmptyString) then REmpty
      else RUndefined
  end.

(** The dependents of the object at [i]: the key set of its [descendants],
    the elements whose dependency chain passes through it. *)
Definition dependents (i : Id) (b : board) : gset Id :=
  match heap b !! i with
  | Some e => descendants e
  | None => ∅
  end.

(** Modelled from the spec: [board.removeObject(el)] (Board.js is not in this
    file), the registry's removeElement, which cascades removal to the
    dependents of what it removes: the element and its dependents leave
    [board.objects]. *)
Definition removeObject (i : Id) (b : board) : board :=
  Board (algebra b) (heap b) (objects b ∖ ({[i]} ∪ dependents i b)).

(** Modelled from the spec: [board.addIntersection(this)] (Board.js is not in
    this file), the registry's registerConstruct: the construct enters
    [board.objects] under its identifier. *)
Definition addIntersection (i : Id) (this : element) (b : board) : board :=
  Board (algebra b) (<[i := this]> (heap b)) ({[i]} ∪ objects b).

(** ** Reading [.type], which can throw

    [None] is a TypeError (property read on [undefined]); the value read is
    [Some t] or [None] for JavaScript's [undefined]. *)

Definition reference_type (b : board) (r : reference) : option (option objType) :=
  match r with
  | RUndefined => None
  | REmpty => Some None
  | RObject i => e ← heap b !! i; Some (Some (type e))
  end.

Definition parameter_type (b : board) (x : parameter) : option (option objType) :=
  match x with
  | PUndefined => None
  | PString _ => Some None
  | PObject i => e ← heap b !! i; Some (Some (type e))
  end.

(** [x == '' || x == undefined] *)
Definition empty_or_undefined (r : reference) : bool :=
  match r with
  | RObject _ => false
  | _ => true
  end.

(** [t == JXG.OBJECT_TYPE_...] *)
Definition type_is (t : option objType) (k : objType) : bool :=
  bool_decide (t = Some k).

(** The condition of line 117. *)
Definition line_line_test (t1 t2 : option objType) : bool :=
  (bool_decide (t1 = t2) && (type_is t1 OBJECT_TYPE_LINE || type_is t1 OBJECT_TYPE_ARROW))
  || (type_is t1 OBJECT_TYPE_LINE && type_is t2 OBJECT_TYPE_ARROW)
  || (type_is t2 OBJECT_TYPE_LINE && type_is t1 OBJECT_TYPE_ARROW).

(** The condition of line 195. *)
Definition circle_circle_test (t1 t2 : option objType) : bool :=
  (bool_decide (t1 = t2) && (type_is t1 OBJECT_TYPE_CIRCLE || type_is t1 OBJECT_TYPE_ARC))
  || (type_is t1 OBJECT_TYPE_CIRCLE && type_is t2 OBJECT_TYPE_ARC)
  || (type_is t2 OBJECT_TYPE_CIRCLE && type_is t1 OBJECT_TYPE_ARC).

(** ** The propagation closures (lines 167-193, 258-279, 357-378)

    The three branches install the same two bodies. *)

(** [o[a] = v] on the plain object [o] whose key set is [s]: the key [a] is
    created, unless [a] is the one string that names the prototype accessor
    every plain object inherits; assigning to that creates no key. *)
Definition record_parent (a : Id) (s : gset Id) : gset Id :=
  if decide (a = "__proto__") then s else {[a]} ∪ s.

(** [el.notExistingParents[a] = this.board.objects[a]] *)
Definition block (a : Id) (e : element) : element :=
  set_notExistingParents (record_parent a (notExistingParents e)) e.

(** One turn of the loop of [hideChild] on [this.descendants[el]]. *)
Definition hide_step (a : Id) (e : element) : element :=
  let e' :=
    if visible e && bool_decide (type e ≠ OBJECT_TYPE_INTERSECTION)
    then set_visible true (hideElement e)
    else e in
  block a e'.

Definition hideChild (x : Id) (a : Id) (b : board) : board :=
  let b1 := upd x (block a) b in
  match heap b1 !! x with
  | Some this =>
      foldl (fun st el => upd el (hide_step a) st) b1 (elements (descendants this))
  | None => b1
  end.

(** One turn of the loop of [showChild] on [this.board.objects[el]]. *)
Definition show_step (a : Id) (e : element) : element :=
  let e' := set_notExistingParents (notExistingParents e ∖ {[a]}) e in
  if visible e' && bool_decide (size (notExistingParents e') = 0)
  then if bool_decide (type e' ≠ OBJECT_TYPE_INTERSECTION)
       then showElement e'
       else e'
  else e'.

Definition showChild (a : Id) (b : board) : board :=
  foldl (fun st el => upd el (show_step a) st) b (elements (objects b)).

(** ** The [update] closures *)

(** [this.f = v] for an Intersection field of the object at [x]. *)
Definition upd_this (x : Id) (f : construct -> construct) (b : board) : board :=
  upd x (upd_construct f) b.

(** Lines 136-144. *)
Definition update_LineLine (x : Id) (b : board) : option board :=
  this ← heap b !! x;
  c ← data this;
  if needsUpdate c then
    q ← p c;
    _ ← heap b !! q;
    let b1 := upd q (set_coords (intersectLineLine (algebra b) (intersect1 c) (intersect2 c))) b in
    Some (upd_this x (set_needsUpdate false) b1)
  else Some b.

(** Lines 223-244. *)
Definition update_CircleCircle (x : Id) (b : board) : option board :=
  this ← heap b !! x;
  c ← data this;
  if negb (needsUpdate c) then Some b
  else
    let coordinates := intersectCircleCircle (algebra b) (intersect1 c) (intersect2 c) in
    q1 ← p1 c;
    e1 ← heap b !! q1;
    q2 ← p2 c;
    e2 ← heap b !! q2;
    let p1show := visible e1 in
    let p2show := visible e2 in
    let b' :=
      if bool_decide (count coordinates = 0) then
        if real c then
          let b1 := hideChild x x b in
          let b2 := upd q1 (set_visible p1show) b1 in
          let b3 := upd q2 (set_visible p2show) b2 in
          upd_this x (set_real false) b3
        else b
      else
        let b1 := upd q1 (set_coords (sol1 coordinates)) b in
        let b2 := upd q2 (set_coords (sol2 coordinates)) b1 in
        if negb (real c) then
          let b3 := showChild x b2 in
          upd_this x (set_real true) b3
        else b2 in
    Some (upd_this x (set_needsUpdate false) b').

(** Lines 321-343. *)
Definition update_CircleLine (x : Id) (b : board) : option board :=
  this ← heap b !! x;
  c ← data this;
  if negb (needsUpdate c) then Some b
  else
    let coordinates := intersectCircleLine (algebra b) (intersect1 c) (intersect2 c) in
    q1 ← p1 c;
    e1 ← heap b !! q1;
    q2 ← p2 c;
    e2 ← heap b !! q2;
    let show1 := visible e1 in
    let show2 := visible e2 in
    let b' :=
      if bool_decide (count coordinates = 0) then
        if real c then
          let b1 := hideChild x x b in
          let b2 := upd q1 (set_visible show1) b1 in
          let b3 := upd q2 (set_visible show2) b2 in
          upd_this x (set_real false) b3
        else b
      else if bool_decide (count coordinates = 2) then
        let b1 := upd q1 (set_coords (sol1 coordinates)) b in
        let b2 := upd q2 (set_coords (sol2 coordinates)) b1 in
        if negb (real c) then
          let b3 := showChild x b2 in
          upd_this x (set_real true) b3
        else b2
      else b in
    Some (upd_this x (set_needsUpdate false) b').

(** ** Methods as a caller sees them

    A method call on the object at [x] runs the closure its constructor
    installed, or the prototype's dummy (lines 389-419) when it installed
    none.  [None] is a TypeError. *)

Definition update (x : Id) (b : board) : option board :=
  this ← heap b !! x;
  c ← data this;
  match kind c with
  | Prototype => Some b
  | LineLine => update_LineLine x b
  | CircleCircle => update_CircleCircle x b
  | CircleLine => update_CircleLine x b
  end.

Definition call_hideChild (x : Id) (a : Id) (b : board) : option board :=
  this ← heap b !! x;
  c ← data this;
  match kind c with
  | Prototype => Some b
  | _ => Some (hideChild x a b)
  end.

Definition call_showChild (x : Id) (a : Id) (b : board) : option board :=
  this ← heap b !! x;
  c ← data this;
  match kind c with
  | Prototype => Some b
  | _ => Some (showChild a b)
  end.

(** The construct's own [hideElement] and [showElement] (lines 149-160,
    246-256, 345-355) set its flag and pass the call on to its points.  An
    instance that returned early has no such closure; what it inherits is
    outside this file, and the model gives no result for it. *)
Definition on_points (f : element -> element) (c : construct) (b : board) : option board :=
  match kind c with
  | Prototype => None
  | LineLine =>
      q ← p c; _ ← heap b !! q; Some (upd q f b)
  | _ =>
      q1 ← p1 c; _ ← heap b !! q1;
      q2 ← p2 c; _ ← heap b !! q2;
      Some (upd q2 f (upd q1 f b))
  end.

Definition Intersection_hideElement (x : Id) (b : board) : option board :=
  this ← heap b !! x;
  c ← data this;
  on_points hideElement c (upd x (set_visible false) b).

Definition Intersection_showElement (x : Id) (b : board) : option board :=
  this ← heap b !! x;
  c ← data this;
  on_points showElement c (upd x (set_visible true) b).

(** Lines 424-433. *)
Definition remove_if_defined (o : option Id) (b : board) : board :=
  match o with
  | Some q => removeObject q b
  | None => b
  end.

Definition remove (x : Id) (b : board) : option board :=
  this ← heap b !! x;
  c ← data this;
  Some (remove_if_defined (p2 c) (remove_if_defined (p1 c) (remove_if_defined (p c) b))).

(** ** The constructor (lines 51-382) *)

(** The object after lines 52-105: the fields [this.constructor()] and the
    first assignments give it.  [needsUpdate] is set by the board later. *)
Definition fresh_this (i1 i2 : reference) : element :=
  Element OBJECT_TYPE_INTERSECTION true ∅ ∅ Undefined false false []
          (Some (Construct Prototype true false i1 i2 None None None)).

(** Modelled from the spec: [this.addChild(el)] (GeometryElement.js is not in
    this file), the registry's addDependency: [el] and its own descendants
    become descendants of [this]. *)
Definition addChild (q : Id) (b : board) (this : element) : element :=
  let below := match heap b !! q with Some e => descendants e | None => ∅ end in
  Element (type this) (visible this) (notExistingParents this)
          ({[q]} ∪ below ∪ descendants this) (coords this)
          (fixed this) (displayed this) (calls this) (data this).

(** The allocation of the two points, lines 198-205 and 282-289. *)
Definition two_points (InterId1 InterId2 : Id) (b : board) : board :=
  let b1 := new_Point (UsrCoords 0 0) InterId1 false b in
  let b2 := upd InterId1 (set_fixed true) b1 in
  let b3 := new_Point (UsrCoords 0 0) InterId2 false b2 in
  upd InterId2 (set_fixed true) b3.

Definition line_or_arrow (t : option objType) : bool :=
  type_is t OBJECT_TYPE_LINE || type_is t OBJECT_TYPE_ARROW.

Definition Intersection (b : board) (Id_ : Id) (Intersect1 Intersect2 : parameter)
    (InterId1 InterId2 : Id) : option board :=
  let i1 := GetReferenceFromParameter b Intersect1 in
  let i2 := GetReferenceFromParameter b Intersect2 in
  let this := fresh_this i1 i2 in
  if empty_or_undefined i1 && empty_or_undefined i2 then
    (* return: the object exists, the board never hears of it *)
    Some (Board (algebra b) (<[Id_ := this]> (heap b)) (objects b))
  else
    t1 ← reference_type b i1;
    t2 ← reference_type b i2;
    if line_line_test t1 t2 then
      let coords := intersectLineLine (algebra b) i1 i2 in
      let b1 := new_Point coords InterId1 true b in
      let b2 := upd InterId1 (set_fixed true) b1 in
      let this1 := addChild InterId1 b2 this in
      let this2 := set_data (Some (Construct LineLine true false i1 i2 (Some InterId1) None None)) this1 in
      Some (addIntersection Id_ this2 b2)
    else
      T1 ← parameter_type b Intersect1;
      T2 ← parameter_type b Intersect2;
      if circle_circle_test T1 T2 then
        let b1 := two_points InterId1 InterId2 b in
        let this1 := addChild InterId2 b1 (addChild InterId1 b1 this) in
        let coordinates := intersectCircleCircle (algebra b) i1 i2 in
        if bool_decide (count coordinates = 1) then
          let b2 := upd InterId1 (fun e => log_call UpdateRenderer (showElement (set_coords (sol1 coordinates) e))) b1 in
          let b3 := upd InterId2 (fun e => log_call UpdateRenderer (showElement (set_coords (sol2 coordinates) e))) b2 in
          let this2 := set_data (Some (Construct CircleCircle true false i1 i2 None (Some InterId1) (Some InterId2))) this1 in
          Some (addIntersection Id_ this2 b3)
        else
          let this2 := set_data (Some (Construct CircleCircle false false i1 i2 None (Some InterId1) (Some InterId2))) this1 in
          Some (addIntersection Id_ this2 b1)
      else
        let b1 := two_points InterId1 InterId2 b in
        let this1 := addChild InterId2 b1 (addChild InterId1 b1 this) in
        let '(j1, j2) := if line_or_arrow t1 then (i2, i1) else (i1, i2) in
        let coordinates := intersectCircleLine (algebra b) j1 j2 in
        if bool_decide (count coordinates = 1) then
          let b2 := upd InterId1 (fun e => log_call Update (showElement (set_coords (sol1 coordinates) e))) b1 in
          let this2 := set_data (Some (Construct CircleLine true false j1 j2 None (Some InterId1) (Some InterId2))) this1 in
          Some (addIntersection Id_ this2 b2)
        else if bool_decide (count coordinates = 2) then
          let b2 := upd InterId1 (fun e => showElement (set_coords (sol1 coordinates) e)) b1 in
          let b3 := upd InterId2 (fun e => showElement (set_coords (sol2 coordinates) e)) b2 in
          let b4 := upd InterId1 (log_call UpdateRenderer) b3 in
          let b5 := upd InterId2 (log_call UpdateRenderer) b4 in
          let this2 := set_data (Some (Construct CircleLine true false j1 j2 None (Some InterId1) (Some InterId2))) this1 in
          Some (addIntersection Id_ this2 b5)
        else
          let this2 := set_data (Some (Construct CircleLine false false j1 j2 None (Some InterId1) (Some InterId2))) this1 in
          Some (addIntersection Id_ this2 b1).

(** ** Observations used in the statements *)

Definition is_real (b : board) (x : Id) : option bool :=
  this ← heap b !! x; c ← data this; Some (real c).

Definition coords_of (b : board) (q : Id) : option coordinates :=
  coords <$> heap b !! q.

Definition visible_of (b : board) (q : Id) : option bool :=
  visible <$> heap b !! q.

Definition displayed_of (b : board) (q : Id) : option bool :=
  displayed <$> heap b !! q.

Definition calls_of (b : board) (q : Id) : option (list call) :=
  calls <$> heap b !! q.

(** The answer of the solver the [update] closure of [c] consults. *)
Definition solver_answer (b : board) (c : construct) : option solution :=
  match kind c with
  | CircleCircle => Some (intersectCircleCircle (algebra b) (intersect1 c) (intersect2 c))
  | CircleLine => Some (intersectCircleLine (algebra b) (intersect1 c) (intersect2 c))
  | _ => None
  end.

(** The points a construct owns: whichever of [p], [p1], [p2] is defined. *)
Definition owned (o : option Id) : gset Id :=
  match o with Some q => {[q]} | None => ∅ end.

Definition owned_points (c : construct) : gset Id :=
  owned (p c) ∪ owned (p1 c) ∪ owned (p2 c).

(** What one call of [board.removeObject] on an owned point takes out of the
    registry: the point and its dependents. *)
Definition cascade (o : option Id) (b : board) : gset Id :=
  match o with Some q => {[q]} ∪ dependents q b | None => ∅ end.

(** The pairs of parent types the spec supports. *)
Definition line_like (t : objType) : bool :=
  bool_decide (t = OBJECT_TYPE_LINE) || bool_decide (t = OBJECT_TYPE_ARROW).

Definition circle_like (t : objType) : bool :=
  bool_decide (t = OBJECT_TYPE_CIRCLE) || bool_decide (t = OBJECT_TYPE_ARC).

Definition supported_pair (t1 t2 : objType) : bool :=
  (line_like t1 && line_like t2)
  || (circle_like t1 && circle_like t2)
  || (circle_like t1 && line_like t2)
  || (line_like t1 && circle_like t2).

(** The test of [showChild] on the element once [a] is deleted. *)
Definition shows (a : Id) (e : element) : bool :=
  visible e
  && bool_decide (size (notExistingParents e ∖ {[a]}) = 0)
  && bool_decide (type e ≠ OBJECT_TYPE_INTERSECTION).

(** The branch whose closures the object at [x] carries. *)
Definition kind_at (b : board) (x : Id) : option branch :=
  this ← heap b !! x; c ← data this; Some (kind c).

(** The two paths of the circle closures of [update], on a construct [x]
    with points [q1] and [q2].  The unreal transition, lines 229-233 and
    328-332, with the flags [v1], [v2] read before it: *)
Definition becomes_unreal (x q1 q2 : Id) (v1 v2 : bool) (b : board) : board :=
  upd_this x (set_real false)
    (upd q2 (set_visible v2) (upd q1 (set_visible v1) (hideChild x x b))).

(** and the coordinate writes with the real transition, lines 236-241 and
    335-340, with [r] the value of [this.real]. *)
Definition writes_coordinates (x q1 q2 : Id) (r : bool) (s : solution) (b : board) : board :=
  let b2 := upd q2 (set_coords (sol2 s)) (upd q1 (set_coords (sol1 s)) b) in
  if negb r then upd_this x (set_real true) (showChild x b2) else b2.

(** A point as lines 198-199 leave it: at the origin, hidden, fixed. *)
Definition placeholder_point : element :=
  set_fixed true (Element OBJECT_TYPE_POINT false ∅ ∅ (UsrCoords 0 0) false false [] None).

(** ** A sample scene

    Two circles and a line; [I] intersects the circles in [A] and [B], [J]
    intersects the first circle and the line in [C] and [D]; the text [T]
    hangs on both constructs, [U] on [I] only and was hidden by the user. *)

Definition plain (t : objType) (v : bool) : element :=
  Element t v ∅ ∅ Undefined false v [] None.

Definition sample_algebra (n : nat) : Algebra :=
  {| intersectLineLine := fun _ _ => UsrCoords 1 1;
     intersectCircleCircle := fun _ _ => Solution n (UsrCoords 3 4) (UsrCoords 3 (-4));
     intersectCircleLine := fun _ _ => Solution n (UsrCoords (-5) 0) (UsrCoords 5 0) |}.

Definition sample_I (r n : bool) : element :=
  Element OBJECT_TYPE_INTERSECTION true ∅ {["A"; "B"; "T"; "U"]} Undefined false false []
    (Some (Construct CircleCircle r n (RObject "c1") (RObject "c2") None (Some "A") (Some "B"))).

Definition sample_J (r n : bool) : element :=
  Element OBJECT_TYPE_INTERSECTION true ∅ {["C"; "D"; "T"]} Undefined false false []
    (Some (Construct CircleLine r n (RObject "c1") (RObject "l") None (Some "C") (Some "D"))).

Definition sample_heap (r n : bool) : gmap Id element :=
  {[ "c1" := plain OBJECT_TYPE_CIRCLE true;
     "c2" := plain OBJECT_TYPE_CIRCLE true;
     "l" := plain OBJECT_TYPE_LINE true;
     "A" := plain OBJECT_TYPE_POINT true;
     "B" := plain OBJECT_TYPE_POINT true;
     "C" := plain OBJECT_TYPE_POINT true;
     "D" := plain OBJECT_TYPE_POINT true;
     "T" := plain OBJECT_TYPE_TEXT true;
     "U" := plain OBJECT_TYPE_TEXT false;
     "I" := sample_I r n;
     "J" := sample_J r n ]}.

Definition sample_objects : gset Id :=
  {["c1"; "c2"; "l"; "A"; "B"; "C"; "D"; "T"; "U"; "I"; "J"]}.

(** The scene with the solvers answering [k] solutions, the constructs'
    [real] flag [r] and [needsUpdate] flag [n]. *)
Definition sample (k : nat) (r n : bool) : board :=
  Board (sample_algebra k) (sample_heap r n) sample_objects.

(** Both constructs have blocked what hangs on them. *)
Definition sample_blocked : board :=
  hideChild "J" "J" (hideChild "I" "I" (sample 0 true false)).

(** The text [T] in [sample_blocked]. *)
Definition T_blocked : element :=
  Element OBJECT_TYPE_TEXT true {["I"; "J"]} ∅ Undefined false false
          [HideElement; HideElement] None.

(** ** What the surroundings do between two calls *)

(** The board's dependency walk sets [needsUpdate] on a construct whose
    parents changed. *)
Definition mark_dirty (x : Id) (b : board) : board :=
  upd_this x (set_needsUpdate true) b.

(** The parents move: the solvers answer differently from now on. *)
Definition set_algebra (alg : Algebra) (b : board) : board :=
  Board alg (heap b) (objects b).

(** What [hideChild(a)] run by [this], the object at [x], does to the object
    at [k]: the first assignment if [k] is [this] itself, one turn of the
    loop if [k] is one of its descendants. *)
Definition touch (x a : Id) (this : element) (k : Id) (e : element) : element :=
  let e0 := if decide (x = k) then block a e else e in
  if decide (k ∈ descendants this) then hide_step a e0 else e0.

(** The branch two parent types call for: both line-like, both circle-like,
    anything else. *)
Definition classify (t1 t2 : objType) : branch :=
  if line_like t1 && line_like t2 then LineLine
  else if circle_like t1 && circle_like t2 then CircleCircle
  else CircleLine.

(** The part of an element's state the propagation works on, except the
    [visible] flag: blocking ancestors, type and displayed state. *)
Definition shown_state (e : element) : gset Id * objType * bool :=
  (notExistingParents e, type e, displayed e).

(** The sample scene with the dependency of the text [T] on the point [A]
    recorded at the point, as the registry tracks it. *)
Definition sample_hanging : board :=
  Board (sample_algebra 1)
        (<["A" := Element OBJECT_TYPE_POINT true ∅ {["T"]} Undefined false true [] None]>
           (sample_heap true false))
        sample_objects.

(** * Properties *)

(** ** Loops over a key set *)

Section loops.
Variable f : element -> element.

Lemma foldl_upd_algebra (l : list Id) (b : board) :
  algebra (foldl (fun st el => upd el f st) b l) = algebra b.
Proof. revert b. induction l as [|k l IH]; intros b; simpl; [done|]. by rewrite IH. Qed.

Lemma foldl_upd_objects (l : list Id) (b : board) :
  objects (foldl (fun st el => upd el f st) b l) = objects b.
Proof. revert b. induction l as [|k l IH]; intros b; simpl; [done|]. by rewrite IH. Qed.

Lemma foldl_upd_lookup (l : list Id) (b : board) (k : Id) :
  NoDup l ->
  heap (foldl (fun st el => upd el f st) b l) !! k
  = if decide (k ∈ l) then f <$> heap b !! k else heap b !! k.
Proof.
  revert b. induction l as [|a l IH]; intros b Hnd; cbn [foldl].
  - case_decide as Hk; [|done]. by apply elem_of_nil in Hk.
  - apply NoDup_cons in Hnd as [Hal Hnd].
    rewrite (IH _ Hnd). cbn [upd heap]. rewrite lookup_alter.
    destruct (decide (k ∈ l)) as [Hk|Hk], (decide (a = k)) as [Heq|Hne],
      (decide (k ∈ a :: l)) as [Hc|Hc]; try done.
    + subst a. contradiction.
    + contradict Hc. by right.
    + contradict Hc. by right.
    + by subst a.
    + contradict Hc. subst a. by left.
    + apply elem_of_cons in Hc as [Heq|Hin]; [by subst a | contradiction].
Qed.
End loops.

Lemma showChild_lookup (a : Id) (b : board) (k : Id) :
  heap (showChild a b) !! k
  = if decide (k ∈ objects b) then show_step a <$> heap b !! k else heap b !! k.
Proof.
  unfold showChild. rewrite foldl_upd_lookup by apply NoDup_elements.
  destruct (decide (k ∈ objects b)) as [Hk|Hk].
  - rewrite decide_True; [done|]. by apply elem_of_elements.
  - rewrite decide_False; [done|]. by rewrite elem_of_elements.
Qed.

Lemma showChild_objects (a : Id) (b : board) : objects (showChild a b) = objects b.
Proof. apply foldl_upd_objects. Qed.

Lemma showChild_algebra (a : Id) (b : board) : algebra (showChild a b) = algebra b.
Proof. apply foldl_upd_algebra. Qed.

Lemma hideChild_lookup (x a : Id) (b : board) (this : element) (k : Id) :
  heap b !! x = Some this ->
  heap (hideChild x a b) !! k
  = (if decide (k ∈ descendants this) then fmap (hide_step a) else fun o => o)
      (if decide (x = k) then block a <$> heap b !! x else heap b !! k).
Proof.
  intros Hx. unfold hideChild. simpl. rewrite lookup_alter_eq, Hx. simpl.
  rewrite foldl_upd_lookup by apply NoDup_elements. simpl.
  rewrite lookup_alter, Hx.
  destruct (decide (k ∈ descendants this)) as [Hk|Hk].
  - rewrite decide_True; [done|]. by apply elem_of_elements.
  - rewrite decide_False; [done|]. by rewrite elem_of_elements.
Qed.

Lemma hideChild_objects (x a : Id) (b : board) : objects (hideChild x a b) = objects b.
Proof.
  unfold hideChild. simpl.
  destruct (alter _ x (heap b) !! x); [|done]. by rewrite foldl_upd_objects.
Qed.

Lemma hideChild_algebra (x a : Id) (b : board) : algebra (hideChild x a b) = algebra b.
Proof.
  unfold hideChild. simpl.
  destruct (alter _ x (heap b) !! x); [|done]. by rewrite foldl_upd_algebra.
Qed.

(** What one turn of each loop does to the fields of an element. *)

Lemma hide_step_visible (a : Id) (e : element) : visible (hide_step a e) = visible e.
Proof. unfold hide_step. destruct (visible e) eqn:Hv; simpl; [|by rewrite Hv]. by case_bool_decide. Qed.

Lemma record_parent_ne (a : Id) (s : gset Id) :
  a ≠ "__proto__" -> record_parent a s = {[a]} ∪ s.
Proof. intros Ha. unfold record_parent. by rewrite decide_False. Qed.

Lemma elem_of_record_parent (a y : Id) (s : gset Id) :
  y ∈ record_parent a s <-> (a ≠ "__proto__" /\ y = a) \/ y ∈ s.
Proof.
  unfold record_parent. case_decide as Ha.
  - split; [by right | by intros [[? _]|?]].
  - rewrite elem_of_union, elem_of_singleton. split; [|tauto].
    intros [->|?]; [left | right]; done.
Qed.

Lemma record_parent_difference (a : Id) (s : gset Id) :
  record_parent a s ∖ {[a]} = s ∖ {[a]}.
Proof.
  apply set_eq. intros y.
  rewrite !elem_of_difference, elem_of_record_parent, elem_of_singleton. tauto.
Qed.

Lemma record_parent_idemp (a : Id) (s : gset Id) :
  record_parent a (record_parent a s) = record_parent a s.
Proof.
  apply set_eq. intros y. rewrite !elem_of_record_parent. tauto.
Qed.

(** The id the assignment cannot record. *)
Lemma block_proto (e : element) : block "__proto__" e = e.
Proof. unfold block, record_parent. rewrite decide_True by done. by destruct e. Qed.

Lemma hide_step_blocks (a : Id) (e : element) :
  notExistingParents (hide_step a e) = record_parent a (notExistingParents e).
Proof. unfold hide_step. by destruct (visible e && _). Qed.

Lemma hide_step_calls (a : Id) (e : element) :
  calls (hide_step a e)
  = if visible e && bool_decide (type e ≠ OBJECT_TYPE_INTERSECTION)
    then HideElement :: calls e else calls e.
Proof. unfold hide_step. by destruct (visible e && _). Qed.

Lemma hide_step_displayed (a : Id) (e : element) :
  displayed (hide_step a e)
  = if visible e && bool_decide (type e ≠ OBJECT_TYPE_INTERSECTION)
    then false else displayed e.
Proof. unfold hide_step. by destruct (visible e && _). Qed.

Lemma hide_step_type (a : Id) (e : element) : type (hide_step a e) = type e.
Proof. unfold hide_step. by destruct (visible e && _). Qed.

Lemma hide_step_data (a : Id) (e : element) : data (hide_step a e) = data e.
Proof. unfold hide_step. by destruct (visible e && _). Qed.

Lemma hide_step_coords (a : Id) (e : element) : coords (hide_step a e) = coords e.
Proof. unfold hide_step. by destruct (visible e && _). Qed.

Lemma show_step_cases (a : Id) (e : element) :
  show_step a e
  = if shows a e
    then showElement (set_notExistingParents (notExistingParents e ∖ {[a]}) e)
    else set_notExistingParents (notExistingParents e ∖ {[a]}) e.
Proof.
  unfold show_step, shows. simpl.
  destruct (visible e); simpl; [|done].
  destruct (bool_decide (size _ = 0)); simpl; [|done].
  by destruct (bool_decide (type e ≠ _)).
Qed.

Lemma show_step_visible (a : Id) (e : element) : visible (show_step a e) = visible e.
Proof.
  rewrite show_step_cases. unfold shows.
  destruct (visible e) eqn:Hv; simpl; [|done].
  by destruct (_ && _).
Qed.

Lemma show_step_blocks (a : Id) (e : element) :
  notExistingParents (show_step a e) = notExistingParents e ∖ {[a]}.
Proof. rewrite show_step_cases. by destruct (shows a e). Qed.

Lemma show_step_calls (a : Id) (e : element) :
  calls (show_step a e) = if shows a e then ShowElement :: calls e else calls e.
Proof. rewrite show_step_cases. by destruct (shows a e). Qed.

Lemma show_step_displayed (a : Id) (e : element) :
  displayed (show_step a e) = if shows a e then true else displayed e.
Proof. rewrite show_step_cases. by destruct (shows a e). Qed.

Lemma show_step_type (a : Id) (e : element) : type (show_step a e) = type e.
Proof. rewrite show_step_cases. by destruct (shows a e). Qed.

Lemma show_step_data (a : Id) (e : element) : data (show_step a e) = data e.
Proof. rewrite show_step_cases. by destruct (shows a e). Qed.

Lemma show_step_coords (a : Id) (e : element) : coords (show_step a e) = coords e.
Proof. rewrite show_step_cases. by destruct (shows a e). Qed.

Lemma shows_blocked (a a' : Id) (e : element) :
  a' ≠ a -> a' ∈ notExistingParents e -> shows a e = false.
Proof.
  intros Hne Hin. unfold shows.
  rewrite (bool_decide_eq_false_2 (size _ = 0)); [by rewrite andb_false_r|].
  intros Hs. apply size_empty_iff in Hs. set_solver.
Qed.

Lemma shows_invisible (a : Id) (e : element) : visible e = false -> shows a e = false.
Proof. intros Hv. unfold shows. by rewrite Hv. Qed.

(** ** Block and Unblock *)

Lemma hideChild_lookup_descendant
    (b : board) (x a : Id) (this : element) (d : Id) (e : element) :
  heap b !! x = Some this ->
  d ∈ descendants this ->
  heap b !! d = Some e ->
  heap (hideChild x a b) !! d
  = Some (hide_step a (if decide (x = d) then block a e else e)).
Proof.
  intros Hx Hd He.
  rewrite (hideChild_lookup _ _ _ _ _ Hx), decide_True by done.
  destruct (decide (x = d)) as [->|Hne]; by rewrite He.
Qed.

(** C9: [hideChild] records the ancestor id, any id that can be a key of
    [notExistingParents], in every descendant, visible or not, Intersection
    or not; it calls [hideElement] on exactly the visible ones that are not
    Intersections, and leaves every [visible] flag as it was.  Afterwards no
    [showChild] for another ancestor shows the descendant. *)
Theorem hideChild_blocks_every_descendant
    (b : board) (x a : Id) (this : element) (d : Id) (e : element) :
  a ≠ "__proto__" ->
  heap b !! x = Some this ->
  d ∈ descendants this ->
  heap b !! d = Some e ->
  exists e',
    heap (hideChild x a b) !! d = Some e'
    /\ a ∈ notExistingParents e'
    /\ visible e' = visible e
    /\ calls e' = (if visible e && bool_decide (type e ≠ OBJECT_TYPE_INTERSECTION)
                   then HideElement :: calls e else calls e)
    /\ displayed e' = (if visible e && bool_decide (type e ≠ OBJECT_TYPE_INTERSECTION)
                       then false else displayed e)
    /\ forall a', a' ≠ a ->
         exists e'', heap (showChild a' (hideChild x a b)) !! d = Some e''
                     /\ a ∈ notExistingParents e''
                     /\ calls e'' = calls e'
                     /\ displayed e'' = displayed e'.
Proof.
  intros Ha Hx Hd He.
  pose (e0 := if decide (x = d) then block a e else e).
  assert (Hlook : heap (hideChild x a b) !! d = Some (hide_step a e0)).
  { rewrite (hideChild_lookup _ _ _ _ _ Hx), decide_True by done.
    unfold e0. destruct (decide (x = d)) as [->|Hne]; by rewrite He. }
  assert (Hv : visible e0 = visible e) by (unfold e0; by case_decide).
  assert (Ht : type e0 = type e) by (unfold e0; by case_decide).
  assert (Hc : calls e0 = calls e) by (unfold e0; by case_decide).
  assert (Hs : displayed e0 = displayed e) by (unfold e0; by case_decide).
  assert (Hin : a ∈ notExistingParents (hide_step a e0))
    by (rewrite hide_step_blocks, elem_of_record_parent; by left).
  exists (hide_step a e0). split; [done|].
  split; [done|].
  split; [by rewrite hide_step_visible|].
  split; [by rewrite hide_step_calls, Hv, Ht, Hc|].
  split; [by rewrite hide_step_displayed, Hv, Ht, Hs|].
  intros a' Hne. rewrite showChild_lookup, Hlook.
  assert (Hno : shows a' (hide_step a e0) = false)
    by (apply (shows_blocked a' a); [congruence | done]).
  case_decide; simpl; [|by eauto].
  eexists; split; [done|].
  rewrite show_step_blocks, show_step_calls, show_step_displayed, Hno.
  split; [|done].
  rewrite elem_of_difference, elem_of_singleton. split; [done | congruence].
Qed.

Lemma hideChild_blocks_every_descendant_witness :
  exists e',
    heap (hideChild "I" "I" (sample 0 true false)) !! "U" = Some e'
    /\ "I" ∈ notExistingParents e'
    /\ visible e' = false
    /\ calls e' = []
    /\ displayed e' = false
    /\ forall a', a' ≠ "I" ->
         exists e'', heap (showChild a' (hideChild "I" "I" (sample 0 true false))) !! "U" = Some e''
                     /\ "I" ∈ notExistingParents e''
                     /\ calls e'' = calls e'
                     /\ displayed e'' = displayed e'.
Proof.
  apply (hideChild_blocks_every_descendant (sample 0 true false) "I" "I"
           (sample_I true false) "U" (plain OBJECT_TYPE_TEXT false)).
  - discriminate.
  - vm_compute. reflexivity.
  - apply (bool_decide_unpack _). vm_compute. exact I.
  - vm_compute. reflexivity.
Defined.

(** C1: with two distinct ancestors [A] and [B] recorded in [E], Unblock(A)
    alone calls no [showElement] on [E] and leaves it as displayed as it was;
    after Unblock(A) and Unblock(B), [E] is shown exactly when its [visible]
    flag is set, no other ancestor blocks it and it is not an Intersection. *)
Theorem showChild_blocking_composition
    (b : board) (A B E : Id) (e : element) :
  A ≠ B ->
  E ∈ objects b ->
  heap b !! E = Some e ->
  A ∈ notExistingParents e ->
  B ∈ notExistingParents e ->
  (exists e1,
     heap (showChild A b) !! E = Some e1
     /\ calls e1 = calls e
     /\ displayed e1 = displayed e
     /\ visible e1 = visible e
     /\ B ∈ notExistingParents e1)
  /\
  (exists e2,
     heap (showChild B (showChild A b)) !! E = Some e2
     /\ let shown :=
          visible e
          && bool_decide (notExistingParents e ∖ {[A]} ∖ {[B]} = ∅)
          && bool_decide (type e ≠ OBJECT_TYPE_INTERSECTION) in
        calls e2 = (if shown then ShowElement :: calls e else calls e)
        /\ displayed e2 = (if shown then true else displayed e)).
Proof.
  intros Hne HE He HA HB.
  assert (H1 : heap (showChild A b) !! E = Some (show_step A e))
    by (by rewrite showChild_lookup, decide_True, He).
  assert (Hno : shows A e = false) by (by apply (shows_blocked A B)).
  split.
  - exists (show_step A e). split; [done|].
    rewrite show_step_calls, show_step_displayed, show_step_visible,
      show_step_blocks, Hno.
    repeat split; [done..|set_solver].
  - exists (show_step B (show_step A e)). split.
    { rewrite showChild_lookup, showChild_objects, decide_True, H1; done. }
    cbv zeta.
    rewrite show_step_calls, show_step_displayed.
    rewrite show_step_calls, show_step_displayed, Hno.
    assert (Hsh : shows B (show_step A e)
                  = visible e
                    && bool_decide (notExistingParents e ∖ {[A]} ∖ {[B]} = ∅)
                    && bool_decide (type e ≠ OBJECT_TYPE_INTERSECTION)).
    { unfold shows.
      rewrite show_step_visible, show_step_blocks, show_step_type.
      do 2 f_equal. apply bool_decide_ext. rewrite size_empty_iff. by unfold_leibniz. }
    by rewrite Hsh.
Qed.

Lemma showChild_blocking_composition_witness :
  (exists e1,
     heap (showChild "I" sample_blocked) !! "T" = Some e1
     /\ calls e1 = calls T_blocked
     /\ displayed e1 = displayed T_blocked
     /\ visible e1 = visible T_blocked
     /\ "J" ∈ notExistingParents e1)
  /\
  (exists e2,
     heap (showChild "J" (showChild "I" sample_blocked)) !! "T" = Some e2
     /\ let shown :=
          visible T_blocked
          && bool_decide (notExistingParents T_blocked ∖ {["I"]} ∖ {["J"]} = ∅)
          && bool_decide (type T_blocked ≠ OBJECT_TYPE_INTERSECTION) in
        calls e2 = (if shown then ShowElement :: calls T_blocked else calls T_blocked)
        /\ displayed e2 = (if shown then true else displayed T_blocked)).
Proof.
  apply (showChild_blocking_composition sample_blocked "I" "J" "T" T_blocked).
  - discriminate.
  - apply (bool_decide_unpack _). vm_compute. exact I.
  - vm_compute. reflexivity.
  - apply (bool_decide_unpack _). vm_compute. exact I.
  - apply (bool_decide_unpack _). vm_compute. exact I.
Defined.

(** The sample scene, end to end: after both Blocks the text is hidden, after
    the first Unblock it still is, after the second it is displayed. *)
Example sample_blocked_then_unblocked :
  displayed_of sample_blocked "T" = Some false
  /\ displayed_of (showChild "I" sample_blocked) "T" = Some false
  /\ displayed_of (showChild "J" (showChild "I" sample_blocked)) "T" = Some true
  /\ displayed_of (showChild "J" (showChild "I" sample_blocked)) "U" = Some false.
Proof. vm_compute. done. Qed.

Lemma hide_step_descendants (a : Id) (e : element) :
  descendants (hide_step a e) = descendants e.
Proof. unfold hide_step. by destruct (visible e && _). Qed.

(** X5: Block, Block, Unblock, Unblock on any board: an element that hangs on
    two constructs [X] and [Y], is not an Intersection and is not blocked
    yet, is hidden by the two Blocks if it was visible, stays so after the
    first Unblock and is displayed again after the second.  The id of the
    second construct must be one that [notExistingParents] can hold as a
    key. *)
Lemma block_twice_unblock_twice
    (b : board) (X Y : Id) (tX tY : element) (E : Id) (e : element) :
  Y ≠ "__proto__" ->
  X ≠ Y -> E ≠ X -> E ≠ Y ->
  heap b !! X = Some tX ->
  heap b !! Y = Some tY ->
  E ∈ descendants tX ->
  E ∈ descendants tY ->
  E ∈ objects b ->
  heap b !! E = Some e ->
  notExistingParents e = ∅ ->
  type e ≠ OBJECT_TYPE_INTERSECTION ->
  let b2 := hideChild Y Y (hideChild X X b) in
  displayed_of b2 E = Some (if visible e then false else displayed e)
  /\ displayed_of (showChild X b2) E = Some (if visible e then false else displayed e)
  /\ displayed_of (showChild Y (showChild X b2)) E
     = Some (if visible e then true else displayed e).
Proof.
  intros HYkey HXY HEX HEY HX HY HdX HdY Hobj He Hnone Htype b2.
  assert (H1 : heap (hideChild X X b) !! E = Some (hide_step X e)).
  { rewrite (hideChild_lookup_descendant _ _ _ _ _ _ HX HdX He).
    by rewrite decide_False by congruence. }
  assert (HY1 : exists tY1, heap (hideChild X X b) !! Y = Some tY1
                            /\ descendants tY1 = descendants tY).
  { rewrite (hideChild_lookup _ _ _ _ _ HX), (decide_False (P := X = Y)), HY by done.
    case_decide; simpl; eexists; split; try done. apply hide_step_descendants. }
  destruct HY1 as (tY1 & HY1 & Hdesc).
  assert (H2 : heap b2 !! E = Some (hide_step Y (hide_step X e))).
  { unfold b2. rewrite (hideChild_lookup_descendant _ Y Y tY1 E (hide_step X e) HY1);
      [|by rewrite Hdesc|done].
    by rewrite decide_False by congruence. }
  remember (hide_step Y (hide_step X e)) as e2 eqn:He2.
  assert (Hobj2 : E ∈ objects b2) by (unfold b2; by rewrite !hideChild_objects).
  assert (Hv2 : visible e2 = visible e)
    by (rewrite He2; by rewrite !hide_step_visible).
  assert (Ht2 : type e2 = type e) by (rewrite He2; by rewrite !hide_step_type).
  assert (Hn2 : notExistingParents e2 = record_parent Y (record_parent X ∅))
    by (rewrite He2; by rewrite !hide_step_blocks, Hnone).
  assert (Hd2 : displayed e2 = if visible e then false else displayed e).
  { rewrite He2. rewrite hide_step_displayed, hide_step_visible, hide_step_type,
      hide_step_displayed.
    rewrite (bool_decide_eq_true_2 _ Htype). by destruct (visible e). }
  assert (Hno : shows X e2 = false).
  { apply (shows_blocked X Y); [done|]. rewrite Hn2.
    apply elem_of_record_parent. by left. }
  assert (H3 : heap (showChild X b2) !! E = Some (show_step X e2))
    by (by rewrite showChild_lookup, decide_True, H2).
  assert (Hyes : shows Y (show_step X e2) = visible e).
  { unfold shows. rewrite show_step_visible, show_step_blocks, show_step_type, Hv2, Ht2, Hn2.
    rewrite (bool_decide_eq_true_2 _ Htype), andb_true_r.
    rewrite bool_decide_eq_true_2; [by rewrite andb_true_r|].
    apply size_empty_iff. intros k.
    rewrite !elem_of_difference, !elem_of_record_parent, !elem_of_singleton,
      elem_of_empty.
    tauto. }
  unfold displayed_of. split; [by rewrite H2; simpl; rewrite Hd2|].
  split.
  - rewrite H3. simpl. by rewrite show_step_displayed, Hno, Hd2.
  - rewrite showChild_lookup, showChild_objects, decide_True, H3 by done. simpl.
    rewrite show_step_displayed, Hyes, show_step_displayed, Hno, Hd2.
    by destruct (visible e).
Qed.

(** C5: an element whose [visible] flag is false when an ancestor blocks it
    is not shown when that ancestor unblocks: [showElement] is not called on
    it, it stays as displayed as it was and its flag stays false, although
    the ancestor is gone from its [notExistingParents]. *)
Theorem showChild_respects_intent
    (b : board) (x a : Id) (this : element) (E : Id) (e : element) :
  heap b !! x = Some this ->
  heap b !! E = Some e ->
  visible e = false ->
  exists e',
    heap (showChild a (hideChild x a b)) !! E = Some e'
    /\ visible e' = false
    /\ calls e' = calls e
    /\ displayed e' = displayed e
    /\ (E ∈ objects b -> notExistingParents e' = notExistingParents e ∖ {[a]}).
Proof.
  intros Hx He Hv.
  pose (e0 := if decide (x = E) then block a e else e).
  pose (e1 := if decide (E ∈ descendants this) then hide_step a e0 else e0).
  assert (Hlook : heap (hideChild x a b) !! E = Some e1).
  { rewrite (hideChild_lookup _ _ _ _ _ Hx). unfold e1, e0.
    destruct (decide (x = E)) as [->|Hne]; rewrite He; by case_decide. }
  assert (Hv0 : visible e0 = false) by (unfold e0; by case_decide).
  assert (Hc0 : calls e0 = calls e) by (unfold e0; by case_decide).
  assert (Hd0 : displayed e0 = displayed e) by (unfold e0; by case_decide).
  assert (Hv1 : visible e1 = false).
  { unfold e1. case_decide; [by rewrite hide_step_visible | done]. }
  assert (Hc1 : calls e1 = calls e).
  { unfold e1. case_decide; [by rewrite hide_step_calls, Hv0 | done]. }
  assert (Hd1 : displayed e1 = displayed e).
  { unfold e1. case_decide; [by rewrite hide_step_displayed, Hv0 | done]. }
  assert (Hn1 : notExistingParents e1 ∖ {[a]} = notExistingParents e ∖ {[a]}).
  { unfold e1, e0.
    destruct (decide (E ∈ descendants this)) as [Hd|Hd], (decide (x = E)) as [Hxe|Hxe];
      repeat (rewrite ?hide_step_blocks, ?record_parent_difference; unfold block;
              cbn [set_notExistingParents notExistingParents]);
      done. }
  rewrite showChild_lookup, hideChild_objects, Hlook.
  destruct (decide (E ∈ objects b)) as [HE|HE]; simpl.
  - eexists; split; [done|].
    rewrite show_step_visible, show_step_calls, show_step_displayed,
      show_step_blocks, (shows_invisible _ _ Hv1).
    by repeat split.
  - eexists; split; [done|]. by repeat split.
Qed.

Lemma showChild_respects_intent_witness :
  exists e',
    heap (showChild "I" (hideChild "I" "I" (sample 0 true false))) !! "U" = Some e'
    /\ visible e' = false
    /\ calls e' = []
    /\ displayed e' = false
    /\ ("U" ∈ objects (sample 0 true false) -> notExistingParents e' = ∅ ∖ {["I"]}).
Proof.
  apply (showChild_respects_intent (sample 0 true false) "I" "I"
           (sample_I true false) "U" (plain OBJECT_TYPE_TEXT false)).
  - vm_compute. reflexivity.
  - vm_compute. reflexivity.
  - reflexivity.
Defined.

(** ** Frame lemmas: what an operation leaves alone

    [g] reads a field; an operation that preserves [g] on every element it
    touches preserves it on the whole heap. *)

Section frames.
Context {A : Type} (g : element -> A).

Lemma upd_field (f : element -> element) (i : Id) (b : board) (k : Id) :
  (forall e, g (f e) = g e) ->
  g <$> heap (upd i f b) !! k = g <$> heap b !! k.
Proof.
  intros Hf. cbn [upd heap]. rewrite lookup_alter.
  destruct (decide (i = k)) as [->|Hne]; [|done].
  destruct (heap b !! k); simpl; [by rewrite Hf | done].
Qed.

Lemma foldl_upd_field (f : element -> element) (l : list Id) (b : board) (k : Id) :
  (forall e, g (f e) = g e) ->
  g <$> heap (foldl (fun st el => upd el f st) b l) !! k = g <$> heap b !! k.
Proof.
  intros Hf. revert b. induction l as [|a l IH]; intros b; cbn [foldl]; [done|].
  by rewrite IH, upd_field.
Qed.

Lemma showChild_field (a : Id) (b : board) (k : Id) :
  (forall e, g (show_step a e) = g e) ->
  g <$> heap (showChild a b) !! k = g <$> heap b !! k.
Proof. intros Hf. unfold showChild. by apply foldl_upd_field. Qed.

Lemma hideChild_field (x a : Id) (b : board) (k : Id) :
  (forall e, g (hide_step a e) = g e) ->
  (forall e, g (block a e) = g e) ->
  g <$> heap (hideChild x a b) !! k = g <$> heap b !! k.
Proof.
  intros Hs Hb. unfold hideChild. fold (block a).
  destruct (heap (upd x (block a) b) !! x).
  - by rewrite foldl_upd_field, upd_field.
  - by rewrite upd_field.
Qed.
End frames.

(** With the prototype accessor's name as the id, [hideChild] records
    nothing anywhere. *)
Lemma hideChild_proto_records_nothing (b : board) (x k : Id) :
  notExistingParents <$> heap (hideChild x "__proto__" b) !! k
  = notExistingParents <$> heap b !! k.
Proof.
  apply hideChild_field.
  - intros e. rewrite hide_step_blocks. unfold record_parent.
    by rewrite decide_True.
  - intros e. by rewrite block_proto.
Qed.

Lemma is_real_ext (b b' : board) (x : Id) :
  data <$> heap b' !! x = data <$> heap b !! x -> is_real b' x = is_real b x.
Proof.
  unfold is_real. intros H.
  destruct (heap b' !! x), (heap b !! x); simpl in *; congruence.
Qed.

Lemma kind_at_ext (b b' : board) (x : Id) :
  data <$> heap b' !! x = data <$> heap b !! x -> kind_at b' x = kind_at b x.
Proof.
  unfold kind_at. intros H.
  destruct (heap b' !! x), (heap b !! x); simpl in *; congruence.
Qed.

Lemma kind_at_upd_this (f : construct -> construct) (x y : Id) (b : board) :
  (forall c, kind (f c) = kind c) ->
  kind_at (upd_this x f b) y = kind_at b y.
Proof.
  intros Hf. unfold kind_at, upd_this. cbn [upd heap]. rewrite lookup_alter.
  destruct (decide (x = y)) as [->|Hne]; [|done].
  destruct (heap b !! y) as [t|]; simpl; [|done].
  destruct (data t); simpl; [by rewrite Hf | done].
Qed.

Lemma is_real_upd_this_needsUpdate (n : bool) (x y : Id) (b : board) :
  is_real (upd_this x (set_needsUpdate n) b) y = is_real b y.
Proof.
  unfold is_real, upd_this. cbn [upd heap]. rewrite lookup_alter.
  destruct (decide (x = y)) as [->|Hne]; [|done].
  destruct (heap b !! y) as [t|]; simpl; [|done].
  by destruct (data t).
Qed.

Lemma is_real_upd_this_real (r : bool) (x : Id) (b : board) (k : branch) :
  kind_at b x = Some k ->
  is_real (upd_this x (set_real r) b) x = Some r.
Proof.
  unfold kind_at, is_real, upd_this. cbn [upd heap]. rewrite lookup_alter_eq.
  destruct (heap b !! x) as [t|]; simpl; [|done].
  by destruct (data t).
Qed.

Lemma kind_at_intro (b : board) (x : Id) (this : element) (c : construct) :
  heap b !! x = Some this -> data this = Some c -> kind_at b x = Some (kind c).
Proof. intros Hx Hc. unfold kind_at. by rewrite Hx; simpl; rewrite Hc. Qed.

Lemma kind_at_hideChild (x a y : Id) (b : board) :
  kind_at (hideChild x a b) y = kind_at b y.
Proof.
  apply kind_at_ext, hideChild_field; [apply hide_step_data | done].
Qed.

Lemma kind_at_showChild (a y : Id) (b : board) :
  kind_at (showChild a b) y = kind_at b y.
Proof. apply kind_at_ext, showChild_field, show_step_data. Qed.

Lemma kind_at_upd (f : element -> element) (i y : Id) (b : board) :
  (forall e, data (f e) = data e) ->
  kind_at (upd i f b) y = kind_at b y.
Proof. intros Hf. by apply kind_at_ext, upd_field. Qed.

(** ** [update] *)

(** An object that has only the prototype's methods, or is not dirty, is
    left alone by [update]. *)
Lemma update_clean (b : board) (x : Id) (this : element) (c : construct) :
  heap b !! x = Some this ->
  data this = Some c ->
  kind c = Prototype \/ needsUpdate c = false ->
  update x b = Some b.
Proof.
  intros Hx Hc Hcl. unfold update. rewrite Hx; simpl; rewrite Hc; simpl.
  destruct (kind c) eqn:Hk; [done|..]; destruct Hcl as [?|Hn]; try done.
  - unfold update_LineLine. rewrite Hx; simpl; rewrite Hc; simpl. by rewrite Hn.
  - unfold update_CircleCircle. rewrite Hx; simpl; rewrite Hc; simpl. by rewrite Hn.
  - unfold update_CircleLine. rewrite Hx; simpl; rewrite Hc; simpl. by rewrite Hn.
Qed.

(** Once [this.needsUpdate = false] has run, [update] is the identity. *)
Lemma update_after_clearing (b : board) (x : Id) (k : branch) :
  kind_at b x = Some k ->
  update x (upd_this x (set_needsUpdate false) b)
  = Some (upd_this x (set_needsUpdate false) b).
Proof.
  unfold kind_at. intros Hk.
  destruct (heap b !! x) as [t|] eqn:Hx; [|done]. simpl in Hk.
  destruct (data t) as [c|] eqn:Hc; [|done].
  apply (update_clean _ _ (upd_construct (set_needsUpdate false) t) (set_needsUpdate false c)).
  - unfold upd_this. cbn [upd heap]. by rewrite lookup_alter_eq, Hx.
  - unfold upd_construct. simpl. by rewrite Hc.
  - by right.
Qed.

(** C7: [update] on a construct whose [needsUpdate] is not set returns the
    board it was given, whole; and whatever [update] returns, a second
    [update] returns again. *)
Theorem update_idempotent (b : board) (x : Id) (this : element) (c : construct) :
  heap b !! x = Some this ->
  data this = Some c ->
  (needsUpdate c = false -> update x b = Some b)
  /\ (forall b', update x b = Some b' -> update x b' = Some b').
Proof.
  intros Hx Hc. split.
  { intros Hn. apply (update_clean _ _ _ _ Hx Hc). by right. }
  intros b' Hup.
  pose proof (kind_at_intro _ _ _ _ Hx Hc) as Hk.
  destruct (needsUpdate c) eqn:Hn; cycle 1.
  { rewrite (update_clean _ _ _ _ Hx Hc) in Hup by (by right).
    injection Hup as <-. apply (update_clean _ _ _ _ Hx Hc). by right. }
  unfold update in Hup. rewrite Hx in Hup; simpl in Hup; rewrite Hc in Hup; simpl in Hup.
  destruct (kind c) eqn:Hkc.
  - injection Hup as <-. apply (update_clean _ _ _ _ Hx Hc). by left.
  - unfold update_LineLine in Hup.
    rewrite Hx in Hup; simpl in Hup; rewrite Hc in Hup; simpl in Hup; rewrite Hn in Hup.
    destruct (p c) as [q|]; [|done]. simpl in Hup.
    destruct (heap b !! q); [|done]. simpl in Hup.
    injection Hup as <-. apply (update_after_clearing _ _ LineLine).
    by rewrite kind_at_upd.
  - unfold update_CircleCircle in Hup.
    rewrite Hx in Hup; simpl in Hup; rewrite Hc in Hup; simpl in Hup; rewrite Hn in Hup.
    destruct (p1 c) as [q1|]; [|done]. simpl in Hup.
    destruct (heap b !! q1) as [e1|]; [|done]. simpl in Hup.
    destruct (p2 c) as [q2|]; [|done]. simpl in Hup.
    destruct (heap b !! q2) as [e2|]; [|done]. simpl in Hup.
    injection Hup as <-. apply (update_after_clearing _ _ CircleCircle).
    case_bool_decide; destruct (real c); simpl;
      rewrite ?kind_at_upd_this, ?kind_at_showChild, ?kind_at_upd, ?kind_at_hideChild; done.
  - unfold update_CircleLine in Hup.
    rewrite Hx in Hup; simpl in Hup; rewrite Hc in Hup; simpl in Hup; rewrite Hn in Hup.
    destruct (p1 c) as [q1|]; [|done]. simpl in Hup.
    destruct (heap b !! q1) as [e1|]; [|done]. simpl in Hup.
    destruct (p2 c) as [q2|]; [|done]. simpl in Hup.
    destruct (heap b !! q2) as [e2|]; [|done]. simpl in Hup.
    injection Hup as <-. apply (update_after_clearing _ _ CircleLine).
    repeat case_bool_decide; destruct (real c); simpl;
      rewrite ?kind_at_upd_this, ?kind_at_showChild, ?kind_at_upd, ?kind_at_hideChild; done.
Qed.

Lemma update_idempotent_witness :
  (needsUpdate (Construct CircleCircle true false (RObject "c1") (RObject "c2")
                 None (Some "A") (Some "B")) = false ->
   update "I" (sample 2 true false) = Some (sample 2 true false))
  /\ (forall b', update "I" (sample 2 true false) = Some b' -> update "I" b' = Some b').
Proof.
  apply (update_idempotent (sample 2 true false) "I" (sample_I true false)).
  - vm_compute. reflexivity.
  - reflexivity.
Defined.

(** Coordinates through the steps of [update]. *)

Lemma coords_of_set (v : coordinates) (q : Id) (b : board) (e : element) :
  heap b !! q = Some e -> coords_of (upd q (set_coords v) b) q = Some v.
Proof.
  intros Hq. unfold coords_of. cbn [upd heap]. by rewrite lookup_alter_eq, Hq.
Qed.

Lemma coords_of_upd_ne (f : element -> element) (i q : Id) (b : board) :
  i ≠ q -> coords_of (upd i f b) q = coords_of b q.
Proof. intros Hne. unfold coords_of. cbn [upd heap]. by rewrite lookup_alter_ne. Qed.

Lemma coords_of_upd_this (f : construct -> construct) (x q : Id) (b : board) :
  coords_of (upd_this x f b) q = coords_of b q.
Proof. unfold coords_of, upd_this. by apply upd_field. Qed.

Lemma coords_of_showChild (a q : Id) (b : board) :
  coords_of (showChild a b) q = coords_of b q.
Proof. unfold coords_of. apply showChild_field, show_step_coords. Qed.

Lemma is_real_intro (b : board) (x : Id) (this : element) (c : construct) :
  heap b !! x = Some this -> data this = Some c -> is_real b x = Some (real c).
Proof. intros Hx Hc. unfold is_real. by rewrite Hx; simpl; rewrite Hc. Qed.

Lemma is_real_upd (f : element -> element) (i y : Id) (b : board) :
  (forall e, data (f e) = data e) ->
  is_real (upd i f b) y = is_real b y.
Proof. intros Hf. by apply is_real_ext, upd_field. Qed.

(** The two circle closures, once the guards of their first lines are
    passed: the board each returns. *)

Section circle_update.
Variables (b : board) (x : Id) (this : element) (c : construct).
Variables (q1 q2 : Id) (e1 e2 : element).
Hypothesis Hx : heap b !! x = Some this.
Hypothesis Hc : data this = Some c.
Hypothesis Hn : needsUpdate c = true.
Hypothesis Hp1 : p1 c = Some q1.
Hypothesis Hp2 : p2 c = Some q2.
Hypothesis He1 : heap b !! q1 = Some e1.
Hypothesis He2 : heap b !! q2 = Some e2.

Lemma update_CircleCircle_unfold :
  kind c = CircleCircle ->
  update x b
  = let s := intersectCircleCircle (algebra b) (intersect1 c) (intersect2 c) in
    Some (upd_this x (set_needsUpdate false)
            (if bool_decide (count s = 0)
             then (if real c then becomes_unreal x q1 q2 (visible e1) (visible e2) b else b)
             else writes_coordinates x q1 q2 (real c) s b)).
Proof.
  intros Hk. unfold update, update_CircleCircle.
  rewrite Hx; simpl; rewrite Hc; simpl. rewrite Hk, Hn; simpl.
  rewrite Hp1; simpl; rewrite He1; simpl; rewrite Hp2; simpl; rewrite He2; simpl.
  done.
Qed.

Lemma update_CircleLine_unfold :
  kind c = CircleLine ->
  update x b
  = let s := intersectCircleLine (algebra b) (intersect1 c) (intersect2 c) in
    Some (upd_this x (set_needsUpdate false)
            (if bool_decide (count s = 0)
             then (if real c then becomes_unreal x q1 q2 (visible e1) (visible e2) b else b)
             else if bool_decide (count s = 2)
                  then writes_coordinates x q1 q2 (real c) s b
                  else b)).
Proof.
  intros Hk. unfold update, update_CircleLine.
  rewrite Hx; simpl; rewrite Hc; simpl. rewrite Hk, Hn; simpl.
  rewrite Hp1; simpl; rewrite He1; simpl; rewrite Hp2; simpl; rewrite He2; simpl.
  done.
Qed.

Lemma becomes_unreal_is_real : is_real (becomes_unreal x q1 q2 (visible e1) (visible e2) b) x = Some false.
Proof.
  unfold becomes_unreal. apply (is_real_upd_this_real _ _ _ (kind c)).
  rewrite !kind_at_upd by done. rewrite kind_at_hideChild.
  by apply (kind_at_intro _ _ this).
Qed.

Lemma writes_coordinates_is_real (s : solution) :
  is_real (writes_coordinates x q1 q2 (real c) s b) x = Some true.
Proof.
  unfold writes_coordinates. destruct (real c) eqn:Hr; simpl.
  - rewrite !is_real_upd by done. by rewrite (is_real_intro _ _ _ _ Hx Hc), Hr.
  - apply (is_real_upd_this_real _ _ _ (kind c)).
    rewrite kind_at_showChild, !kind_at_upd by done.
    by apply (kind_at_intro _ _ this).
Qed.

Lemma writes_coordinates_second (s : solution) :
  coords_of (writes_coordinates x q1 q2 (real c) s b) q2 = Some (sol2 s).
Proof.
  assert (Hq2 : is_Some (heap (upd q1 (set_coords (sol1 s)) b) !! q2)).
  { cbn [upd heap]. rewrite lookup_alter.
    case_decide; subst; rewrite ?He1, ?He2; simpl; eauto. }
  destruct Hq2 as [e Hq2].
  unfold writes_coordinates. destruct (real c); simpl.
  - by apply (coords_of_set _ _ _ e).
  - rewrite coords_of_upd_this, coords_of_showChild.
    by apply (coords_of_set _ _ _ e).
Qed.

Lemma writes_coordinates_first (s : solution) :
  q1 ≠ q2 -> coords_of (writes_coordinates x q1 q2 (real c) s b) q1 = Some (sol1 s).
Proof.
  intros Hne.
  unfold writes_coordinates. destruct (real c); simpl;
    rewrite ?coords_of_upd_this, ?coords_of_showChild;
    rewrite coords_of_upd_ne by done; by apply (coords_of_set _ _ _ e1).
Qed.
End circle_update.

(** C2 (amended): on a dirty circle construct, [update] with a solver count
    of 0 leaves [real] false; with a count of at least 1 for Circle x Circle,
    and of exactly 2 for Circle x Line, it leaves [real] true and both points
    hold the solver's coordinates. *)
Theorem update_reality
    (b : board) (x : Id) (this : element) (c : construct) (s : solution)
    (q1 q2 : Id) (e1 e2 : element) :
  heap b !! x = Some this ->
  data this = Some c ->
  needsUpdate c = true ->
  solver_answer b c = Some s ->
  p1 c = Some q1 ->
  p2 c = Some q2 ->
  heap b !! q1 = Some e1 ->
  heap b !! q2 = Some e2 ->
  q1 ≠ q2 ->
  exists b',
    update x b = Some b'
    /\ (count s = 0 -> is_real b' x = Some false)
    /\ ((kind c = CircleCircle /\ 1 <= count s) \/ (kind c = CircleLine /\ count s = 2) ->
        is_real b' x = Some true
        /\ coords_of b' q1 = Some (sol1 s)
        /\ coords_of b' q2 = Some (sol2 s)).
Proof.
  intros Hx Hc Hn Hs Hp1 Hp2 He1 He2 Hne.
  unfold solver_answer in Hs. destruct (kind c) eqn:Hk; try done; injection Hs as <-.
  - rewrite (update_CircleCircle_unfold _ _ _ _ _ _ _ _ Hx Hc Hn Hp1 Hp2 He1 He2 Hk).
    cbv zeta. eexists; split; [done|]. split.
    + intros H0. rewrite bool_decide_eq_true_2 by done.
      rewrite is_real_upd_this_needsUpdate. destruct (real c) eqn:Hr.
      * eapply becomes_unreal_is_real; eauto.
      * by rewrite (is_real_intro _ _ _ _ Hx Hc), Hr.
    + intros [[_ H1]|[? _]]; [|done].
      rewrite bool_decide_eq_false_2 by lia.
      rewrite is_real_upd_this_needsUpdate, !coords_of_upd_this.
      split; [eapply writes_coordinates_is_real; eauto|].
      split; [eapply writes_coordinates_first; eauto
             |eapply writes_coordinates_second; eauto].
  - rewrite (update_CircleLine_unfold _ _ _ _ _ _ _ _ Hx Hc Hn Hp1 Hp2 He1 He2 Hk).
    cbv zeta. eexists; split; [done|]. split.
    + intros H0. rewrite bool_decide_eq_true_2 by done.
      rewrite is_real_upd_this_needsUpdate. destruct (real c) eqn:Hr.
      * eapply becomes_unreal_is_real; eauto.
      * by rewrite (is_real_intro _ _ _ _ Hx Hc), Hr.
    + intros [[? _]|[_ H2]]; [done|].
      rewrite bool_decide_eq_false_2 by lia.
      rewrite bool_decide_eq_true_2 by done.
      rewrite is_real_upd_this_needsUpdate, !coords_of_upd_this.
      split; [eapply writes_coordinates_is_real; eauto|].
      split; [eapply writes_coordinates_first; eauto
             |eapply writes_coordinates_second; eauto].
Qed.

Lemma update_reality_witness :
  exists b',
    update "J" (sample 2 false true) = Some b'
    /\ (2 = 0 -> is_real b' "J" = Some false)
    /\ ((CircleLine = CircleCircle /\ 1 <= 2) \/ (CircleLine = CircleLine /\ 2 = 2) ->
        is_real b' "J" = Some true
        /\ coords_of b' "C" = Some (UsrCoords (-5) 0)
        /\ coords_of b' "D" = Some (UsrCoords 5 0)).
Proof.
  apply (update_reality (sample 2 false true) "J" (sample_J false true)
           (Construct CircleLine false true (RObject "c1") (RObject "l")
              None (Some "C") (Some "D"))
           (Solution 2 (UsrCoords (-5) 0) (UsrCoords 5 0))
           "C" "D" (plain OBJECT_TYPE_POINT true) (plain OBJECT_TYPE_POINT true)).
  - vm_compute. reflexivity.
  - reflexivity.
  - reflexivity.
  - reflexivity.
  - reflexivity.
  - reflexivity.
  - vm_compute. reflexivity.
  - vm_compute. reflexivity.
  - discriminate.
Defined.

(** C2 as stated fails: a Circle x Line construct that is not real and is
    told of one solution stays not real, and its points keep their old
    coordinates. *)
Lemma update_CircleLine_tangent_counterexample :
  ~ (forall (b : board) (x : Id) (this : element) (c : construct) (s : solution)
            (q1 q2 : Id) (e1 e2 : element),
        heap b !! x = Some this ->
        data this = Some c ->
        needsUpdate c = true ->
        solver_answer b c = Some s ->
        p1 c = Some q1 ->
        p2 c = Some q2 ->
        heap b !! q1 = Some e1 ->
        heap b !! q2 = Some e2 ->
        q1 ≠ q2 ->
        exists b',
          update x b = Some b'
          /\ (count s = 0 -> is_real b' x = Some false)
          /\ (1 <= count s ->
              is_real b' x = Some true
              /\ coords_of b' q1 = Some (sol1 s)
              /\ coords_of b' q2 = Some (sol2 s))).
Proof.
  intros H.
  destruct (H (sample 1 false true) "J" (sample_J false true)
              (Construct CircleLine false true (RObject "c1") (RObject "l")
                 None (Some "C") (Some "D"))
              (Solution 1 (UsrCoords (-5) 0) (UsrCoords 5 0))
              "C" "D" (plain OBJECT_TYPE_POINT true) (plain OBJECT_TYPE_POINT true))
    as (b' & Hup & _ & Hreal); try (vm_compute; reflexivity); try discriminate.
  destruct Hreal as [Hreal _]; [simpl; lia|].
  vm_compute in Hup. injection Hup as <-.
  vm_compute in Hreal. discriminate.
Qed.

(** The same input, evaluated: [real] stays false and no coordinate is
    written. *)
Example update_CircleLine_tangent :
  exists b',
    update "J" (sample 1 false true) = Some b'
    /\ is_real b' "J" = Some false
    /\ coords_of b' "C" = coords_of (sample 1 false true) "C"
    /\ coords_of b' "D" = coords_of (sample 1 false true) "D".
Proof. eexists. split; [vm_compute; reflexivity|]. vm_compute. done. Qed.

(** Visibility flags through the unreal transition. *)

Lemma visible_of_hideChild (x a k : Id) (b : board) :
  visible_of (hideChild x a b) k = visible_of b k.
Proof. unfold visible_of. apply hideChild_field; [apply hide_step_visible | done]. Qed.

Lemma visible_of_restore (b b1 : board) (q : Id) (v : bool) :
  (forall k, visible_of b1 k = visible_of b k) ->
  visible_of b q = Some v ->
  forall k, visible_of (upd q (set_visible v) b1) k = visible_of b k.
Proof.
  intros Hall Hq k. specialize (Hall k). unfold visible_of in *.
  cbn [upd heap]. rewrite lookup_alter.
  destruct (decide (q = k)) as [->|Hne]; [|done].
  destruct (heap b1 !! k); simpl in *; congruence.
Qed.

Lemma visible_of_upd_this (f : construct -> construct) (x k : Id) (b : board) :
  visible_of (upd_this x f b) k = visible_of b k.
Proof. unfold visible_of, upd_this. by apply upd_field. Qed.

(** C6: when a dirty, real circle construct is told of no solution, [update]
    runs [hideChild] with the construct's own id; afterwards the construct
    is not real, every [visible] flag on the board, those of the two owned
    points included, is what it was before, and every descendant carries the
    construct's id in its [notExistingParents] and has received [hideElement]
    exactly if it was visible and not an Intersection.  The construct's id is
    one that [notExistingParents] can hold as a key. *)
Theorem update_unreal_keeps_intent
    (b : board) (x : Id) (this : element) (c : construct) (s : solution)
    (q1 q2 : Id) (e1 e2 : element) :
  x ≠ "__proto__" ->
  heap b !! x = Some this ->
  data this = Some c ->
  needsUpdate c = true ->
  real c = true ->
  solver_answer b c = Some s ->
  count s = 0 ->
  p1 c = Some q1 ->
  p2 c = Some q2 ->
  heap b !! q1 = Some e1 ->
  heap b !! q2 = Some e2 ->
  exists b',
    update x b = Some b'
    /\ b' = upd_this x (set_needsUpdate false)
              (upd_this x (set_real false)
                 (upd q2 (set_visible (visible e2))
                    (upd q1 (set_visible (visible e1)) (hideChild x x b))))
    /\ is_real b' x = Some false
    /\ visible_of b' q1 = Some (visible e1)
    /\ visible_of b' q2 = Some (visible e2)
    /\ (forall k, visible_of b' k = visible_of b k)
    /\ (forall d e, d ∈ descendants this -> heap b !! d = Some e ->
          exists e', heap b' !! d = Some e'
                     /\ visible e' = visible e
                     /\ x ∈ notExistingParents e'
                     /\ calls e' = (if visible e && bool_decide (type e ≠ OBJECT_TYPE_INTERSECTION)
                                    then HideElement :: calls e else calls e)).
Proof.
  intros Hkey Hx Hc Hn Hr Hs H0 Hp1 Hp2 He1 He2.
  set (b' := upd_this x (set_needsUpdate false)
               (becomes_unreal x q1 q2 (visible e1) (visible e2) b)).
  assert (Hup : update x b = Some b').
  { unfold solver_answer in Hs. destruct (kind c) eqn:Hk; try done; injection Hs as <-.
    - rewrite (update_CircleCircle_unfold _ _ _ _ _ _ _ _ Hx Hc Hn Hp1 Hp2 He1 He2 Hk).
      cbv zeta. by rewrite bool_decide_eq_true_2, Hr by done.
    - rewrite (update_CircleLine_unfold _ _ _ _ _ _ _ _ Hx Hc Hn Hp1 Hp2 He1 He2 Hk).
      cbv zeta. by rewrite bool_decide_eq_true_2, Hr by done. }
  assert (Hvis : forall k, visible_of b' k = visible_of b k).
  { intros k. unfold b', becomes_unreal. rewrite !visible_of_upd_this.
    apply visible_of_restore; [|by unfold visible_of; rewrite He2].
    apply visible_of_restore; [|by unfold visible_of; rewrite He1].
    intros k'. apply visible_of_hideChild. }
  exists b'. split; [done|]. split; [done|].
  split.
  { unfold b'. rewrite is_real_upd_this_needsUpdate.
    eapply becomes_unreal_is_real; eauto. }
  split; [by rewrite Hvis; unfold visible_of; rewrite He1|].
  split; [by rewrite Hvis; unfold visible_of; rewrite He2|].
  split; [done|].
  intros d e Hd He.
  pose proof (hideChild_lookup_descendant _ _ x _ _ _ Hx Hd He) as Hh.
  set (e0 := if decide (x = d) then block x e else e) in Hh.
  assert (Hv0 : visible e0 = visible e) by (unfold e0; by case_decide).
  assert (Ht0 : type e0 = type e) by (unfold e0; by case_decide).
  assert (Hc0 : calls e0 = calls e) by (unfold e0; by case_decide).
  assert (Hsome : is_Some (heap b' !! d)).
  { specialize (Hvis d). unfold visible_of in Hvis. rewrite He in Hvis.
    destruct (heap b' !! d); [eauto | done]. }
  destruct Hsome as [e' He'].
  exists e'. split; [done|].
  split.
  { specialize (Hvis d). unfold visible_of in Hvis. rewrite He, He' in Hvis.
    by injection Hvis. }
  assert (Hnep : notExistingParents <$> heap b' !! d
                 = notExistingParents <$> heap (hideChild x x b) !! d).
  { unfold b', becomes_unreal, upd_this. by rewrite !upd_field by done. }
  assert (Hcalls : calls <$> heap b' !! d = calls <$> heap (hideChild x x b) !! d).
  { unfold b', becomes_unreal, upd_this. by rewrite !upd_field by done. }
  rewrite He', Hh in Hnep, Hcalls.
  change (Some (notExistingParents e') = Some (notExistingParents (hide_step x e0))) in Hnep.
  change (Some (calls e') = Some (calls (hide_step x e0))) in Hcalls.
  apply (inj Some) in Hnep. apply (inj Some) in Hcalls.
  split.
  - rewrite Hnep, hide_step_blocks, elem_of_record_parent. by left.
  - by rewrite Hcalls, hide_step_calls, Hv0, Ht0, Hc0.
Qed.

Lemma update_unreal_keeps_intent_witness :
  exists b',
    update "I" (sample 0 true true) = Some b'
    /\ is_real b' "I" = Some false
    /\ visible_of b' "A" = Some true
    /\ visible_of b' "B" = Some true
    /\ displayed_of b' "A" = Some false.
Proof.
  destruct (update_unreal_keeps_intent (sample 0 true true) "I" (sample_I true true)
              (Construct CircleCircle true true (RObject "c1") (RObject "c2")
                 None (Some "A") (Some "B"))
              (Solution 0 (UsrCoords 3 4) (UsrCoords 3 (-4)))
              "A" "B" (plain OBJECT_TYPE_POINT true) (plain OBJECT_TYPE_POINT true))
    as (b' & Hup & Hb' & Hreal & HA & HB & _);
    try discriminate; try reflexivity; try (vm_compute; reflexivity).
  exists b'. repeat split; try done.
  rewrite Hb'. vm_compute. reflexivity.
Defined.

(** ** [remove] *)

(** C10 as stated fails: the registry's removal cascades, so [remove] on a
    construct whose point [A] has the text [T] hanging on it takes [T] out of
    [board.objects] as well. *)
Lemma remove_cascade_counterexample :
  ~ (forall (b : board) (x : Id) (this : element) (c : construct),
        heap b !! x = Some this ->
        data this = Some c ->
        exists b',
          remove x b = Some b'
          /\ objects b' = objects b ∖ owned_points c
          /\ heap b' = heap b
          /\ algebra b' = algebra b
          /\ (forall k, k ∉ owned_points c -> (k ∈ objects b' <-> k ∈ objects b))).
Proof.
  intros H.
  destruct (H sample_hanging "I" (sample_I true false)
              (Construct CircleCircle true false (RObject "c1") (RObject "c2")
                 None (Some "A") (Some "B")))
    as (b' & Hrm & _ & _ & _ & Hall).
  { vm_compute. reflexivity. }
  { reflexivity. }
  assert (HT : "T" ∈ objects b').
  { apply Hall; apply (bool_decide_unpack _); vm_compute; exact I. }
  vm_compute in Hrm. injection Hrm as <-.
  apply (bool_decide_pack _) in HT. vm_compute in HT. exact HT.
Qed.

(** C10 (amended): [remove] hands exactly the defined ones of [this.p],
    [this.p1], [this.p2] to the registry's removal; what leaves
    [board.objects] is those points and their dependents.  An element that
    is neither an owned point nor a dependent of one is registered exactly
    if it was before, and every object and the solvers are as before. *)
Theorem remove_removes_owned_points_and_dependents
    (b : board) (x : Id) (this : element) (c : construct) :
  heap b !! x = Some this ->
  data this = Some c ->
  exists b',
    remove x b = Some b'
    /\ objects b'
       = objects b ∖ (cascade (p c) b ∪ cascade (p1 c) b ∪ cascade (p2 c) b)
    /\ heap b' = heap b
    /\ algebra b' = algebra b
    /\ (forall k,
          k ∉ owned_points c ->
          (forall q, q ∈ owned_points c -> k ∉ dependents q b) ->
          (k ∈ objects b' <-> k ∈ objects b)).
Proof.
  intros Hx Hc. unfold remove. rewrite Hx; simpl; rewrite Hc; simpl.
  eexists; split; [done|].
  assert (Hobj : objects (remove_if_defined (p2 c) (remove_if_defined (p1 c)
                            (remove_if_defined (p c) b)))
                 = objects b ∖ (cascade (p c) b ∪ cascade (p1 c) b ∪ cascade (p2 c) b)).
  { unfold cascade, remove_if_defined, removeObject, dependents.
    destruct (p c), (p1 c), (p2 c); cbn [objects heap]; apply set_eq; intros k;
      rewrite ?elem_of_difference, ?elem_of_union, ?elem_of_singleton,
        ?elem_of_empty; tauto. }
  split; [done|].
  split; [by destruct (p c), (p1 c), (p2 c)|].
  split; [by destruct (p c), (p1 c), (p2 c)|].
  intros k Hk Hdep. rewrite Hobj, elem_of_difference.
  split; [tauto|]. intros Hin. split; [done|].
  unfold owned_points, owned in Hk, Hdep. unfold cascade.
  destruct (p c) as [r|], (p1 c) as [r1|], (p2 c) as [r2|];
    rewrite ?elem_of_union, ?elem_of_singleton, ?elem_of_empty;
    rewrite ?elem_of_union, ?elem_of_singleton, ?elem_of_empty in Hk;
    intros Hcas;
    repeat match goal with
           | H : _ \/ _ |- _ => destruct H as [H|H]
           end;
    try done; try (subst k; tauto);
    match goal with
    | H : k ∈ dependents ?q b |- _ =>
        apply (Hdep q); [|exact H];
        rewrite ?elem_of_union, ?elem_of_singleton; tauto
    end.
Qed.

Lemma remove_removes_owned_points_and_dependents_witness :
  exists b',
    remove "I" sample_hanging = Some b'
    /\ ("A" ∉ objects b') /\ ("B" ∉ objects b') /\ ("T" ∉ objects b')
    /\ "J" ∈ objects b' /\ "I" ∈ objects b'.
Proof.
  destruct (remove_removes_owned_points_and_dependents sample_hanging "I"
              (sample_I true false)
              (Construct CircleCircle true false (RObject "c1") (RObject "c2")
                 None (Some "A") (Some "B")))
    as (b' & Hrm & Hobj & _ & _ & Hrest).
  { vm_compute. reflexivity. }
  { reflexivity. }
  exists b'. split; [done|].
  rewrite Hobj.
  repeat split; apply (bool_decide_unpack _); vm_compute; exact I.
Defined.

(** ** Construction *)

Lemma two_points_first (q1 q2 : Id) (b : board) :
  q1 ≠ q2 -> heap (two_points q1 q2 b) !! q1 = Some placeholder_point.
Proof.
  intros Hne. unfold two_points, new_Point, upd. cbn [heap algebra objects].
  rewrite lookup_alter_ne, lookup_insert_ne by done.
  by rewrite lookup_alter_eq, lookup_insert_eq.
Qed.

Lemma two_points_second (q1 q2 : Id) (b : board) :
  heap (two_points q1 q2 b) !! q2 = Some placeholder_point.
Proof.
  unfold two_points, new_Point, upd. cbn [heap algebra objects].
  by rewrite lookup_alter_eq, lookup_insert_eq.
Qed.

Lemma two_points_objects (q1 q2 : Id) (b : board) :
  objects (two_points q1 q2 b) = {[q2]} ∪ ({[q1]} ∪ objects b).
Proof. done. Qed.

Lemma addIntersection_this (i : Id) (this : element) (b : board) :
  heap (addIntersection i this b) !! i = Some this.
Proof. unfold addIntersection. cbn [heap]. by rewrite lookup_insert_eq. Qed.

Lemma addIntersection_other (i k : Id) (this : element) (b : board) :
  i ≠ k -> heap (addIntersection i this b) !! k = heap b !! k.
Proof. intros Hne. unfold addIntersection. cbn [heap]. by rewrite lookup_insert_ne. Qed.

Lemma line_line_test_unsupported (t1 t2 : objType) :
  supported_pair t1 t2 = false -> line_line_test (Some t1) (Some t2) = false.
Proof. destruct t1, t2; done. Qed.

Lemma circle_circle_test_unsupported (t1 t2 : objType) :
  supported_pair t1 t2 = false -> circle_circle_test (Some t1) (Some t2) = false.
Proof. destruct t1, t2; done. Qed.

Lemma line_line_test_circles (t1 t2 : objType) :
  circle_like t1 = true -> line_line_test (Some t1) (Some t2) = false.
Proof. destruct t1, t2; done. Qed.

Lemma circle_circle_test_circles (t1 t2 : objType) :
  circle_like t1 = true -> circle_like t2 = true ->
  circle_circle_test (Some t1) (Some t2) = true.
Proof. destruct t1, t2; done. Qed.

(** X21: when neither parent resolves the constructor returns at line 111: the
    object has no point and only the prototype's methods, the board has not
    registered anything, and [update] and [remove] on the object change
    nothing. *)
Lemma Intersection_no_parents
    (b : board) (Id_ : Id) (Intersect1 Intersect2 : parameter) (q1 q2 : Id) :
  empty_or_undefined (GetReferenceFromParameter b Intersect1) = true ->
  empty_or_undefined (GetReferenceFromParameter b Intersect2) = true ->
  exists b' this c,
    Intersection b Id_ Intersect1 Intersect2 q1 q2 = Some b'
    /\ objects b' = objects b
    /\ heap b' !! Id_ = Some this
    /\ data this = Some c
    /\ kind c = Prototype
    /\ owned_points c = ∅
    /\ update Id_ b' = Some b'
    /\ call_hideChild Id_ Id_ b' = Some b'
    /\ call_showChild Id_ Id_ b' = Some b'
    /\ remove Id_ b' = Some b'.
Proof.
  intros H1 H2. unfold Intersection. rewrite H1, H2. cbn [andb].
  eexists _, _, _. split; [done|]. split; [done|].
  split; [cbn [heap]; by rewrite lookup_insert_eq|].
  split; [done|]. split; [done|]. split; [done|].
  unfold update, call_hideChild, call_showChild, remove.
  cbn [heap]. rewrite lookup_insert_eq. by destruct b.
Qed.

Lemma Intersection_no_parents_witness :
  exists b' this c,
    Intersection (sample 2 true false) "K" PUndefined (PString EmptyString) "P" "Q" = Some b'
    /\ objects b' = objects (sample 2 true false)
    /\ heap b' !! "K" = Some this
    /\ data this = Some c
    /\ kind c = Prototype
    /\ owned_points c = ∅
    /\ update "K" b' = Some b'
    /\ call_hideChild "K" "K" b' = Some b'
    /\ call_showChild "K" "K" b' = Some b'
    /\ remove "K" b' = Some b'.
Proof.
  apply (Intersection_no_parents (sample 2 true false) "K" PUndefined
           (PString EmptyString) "P" "Q").
  - reflexivity.
  - vm_compute. reflexivity.
Defined.

(** C4: with one parent undefined and the other a live object the
    constructor does not return at line 111; line 117 reads [.type] of
    [undefined] and throws. *)
Theorem Intersection_one_parent_undefined (b : board) (Id_ i q1 q2 : Id) :
  Intersection b Id_ PUndefined (PObject i) q1 q2 = None
  /\ Intersection b Id_ (PObject i) PUndefined q1 q2 = None.
Proof.
  unfold Intersection. cbn. split; [done|].
  by destruct (heap b !! i).
Qed.

(** The other way one parent can fail to resolve: the empty string.  The
    constructor goes to the last branch and allocates two points. *)
Example Intersection_one_parent_empty :
  exists b',
    Intersection (sample 0 true false) "K" (PString EmptyString) (PObject "l") "P" "Q"
    = Some b'
    /\ kind_at b' "K" = Some CircleLine
    /\ "P" ∈ objects b' /\ "Q" ∈ objects b'.
Proof.
  eexists. split; [vm_compute; reflexivity|].
  split; [vm_compute; reflexivity|].
  split; apply (bool_decide_unpack _); vm_compute; exact I.
Qed.

(** C8: two live parents whose types are not a supported pair are not
    rejected: the constructor takes the last branch, allocates and registers
    two points, consults the circle-line solver and registers a construct
    with the Circle x Line closures. *)
Theorem Intersection_unsupported_pair
    (b : board) (Id_ i1 i2 : Id) (e1 e2 : element) (q1 q2 : Id) :
  heap b !! i1 = Some e1 ->
  heap b !! i2 = Some e2 ->
  supported_pair (type e1) (type e2) = false ->
  exists b' this c,
    Intersection b Id_ (PObject i1) (PObject i2) q1 q2 = Some b'
    /\ heap b' !! Id_ = Some this
    /\ data this = Some c
    /\ kind c = CircleLine
    /\ p1 c = Some q1 /\ p2 c = Some q2
    /\ q1 ∈ objects b' /\ q2 ∈ objects b' /\ Id_ ∈ objects b'.
Proof.
  intros H1 H2 Hun. unfold Intersection. cbn -[two_points addIntersection].
  rewrite H1, H2. cbn -[two_points addIntersection].
  rewrite (line_line_test_unsupported _ _ Hun), (circle_circle_test_unsupported _ _ Hun).
  destruct (line_or_arrow (Some (type e1)));
    repeat case_bool_decide;
    (eexists _, _, _; split; [done|]; rewrite addIntersection_this;
     split; [done|]; split; [done|]; split; [done|]; split; [done|]; split; [done|];
     unfold addIntersection, upd; cbn [objects]; rewrite two_points_objects;
     repeat split; set_solver).
Qed.

Lemma Intersection_unsupported_pair_witness :
  exists b' this c,
    Intersection (sample 0 true false) "K" (PObject "A") (PObject "T") "P" "Q" = Some b'
    /\ heap b' !! "K" = Some this
    /\ data this = Some c
    /\ kind c = CircleLine
    /\ p1 c = Some "P" /\ p2 c = Some "Q"
    /\ "P" ∈ objects b' /\ "Q" ∈ objects b' /\ "K" ∈ objects b'.
Proof.
  apply (Intersection_unsupported_pair (sample 0 true false) "K" "A" "T"
           (plain OBJECT_TYPE_POINT true) (plain OBJECT_TYPE_TEXT true)).
  - vm_compute. reflexivity.
  - vm_compute. reflexivity.
  - reflexivity.
Defined.



(** The same construction when the circles do not meet. *)
Example Intersection_CircleCircle_disjoint :
  exists b',
    Intersection (sample 0 true false) "K" (PObject "c1") (PObject "c2") "P" "Q" = Some b'
    /\ is_real b' "K" = Some false
    /\ displayed_of b' "P" = Some false
    /\ displayed_of b' "Q" = Some false.
Proof. eexists. split; [vm_compute; reflexivity|]. vm_compute. done. Qed.

(** Two circles handed over by their ids: line 195 reads [.type] of the
    strings, not of the resolved objects, so the Circle x Circle branch is
    not taken. *)
Example Intersection_circles_by_id :
  exists b',
    Intersection (sample 1 true false) "K" (PString "c1") (PString "c2") "P" "Q" = Some b'
    /\ kind_at b' "K" = Some CircleLine.
Proof. eexists. split; vm_compute; reflexivity. Qed.

(** * Further properties of the propagation protocol *)

Lemma hideChild_pointwise (b : board) (x a : Id) (this : element) (k : Id) :
  heap b !! x = Some this ->
  heap (hideChild x a b) !! k = touch x a this k <$> heap b !! k.
Proof.
  intros Hx. rewrite (hideChild_lookup _ _ _ _ _ Hx). unfold touch.
  destruct (decide (x = k)) as [->|Hne], (decide (k ∈ descendants this));
    by destruct (heap b !! k).
Qed.

Lemma touch_visible (x a : Id) (this : element) (k : Id) (e : element) :
  visible (touch x a this k e) = visible e.
Proof.
  unfold touch. repeat case_decide; rewrite ?hide_step_visible; done.
Qed.

Lemma touch_type (x a : Id) (this : element) (k : Id) (e : element) :
  type (touch x a this k e) = type e.
Proof.
  unfold touch. repeat case_decide; rewrite ?hide_step_type; done.
Qed.

Lemma touch_descendants (x a : Id) (this : element) (k : Id) (e : element) :
  descendants (touch x a this k e) = descendants e.
Proof.
  unfold touch. repeat case_decide; rewrite ?hide_step_descendants; done.
Qed.

Lemma touch_displayed (x a : Id) (this : element) (k : Id) (e : element) :
  displayed (touch x a this k e)
  = if bool_decide (k ∈ descendants this) && visible e
       && bool_decide (type e ≠ OBJECT_TYPE_INTERSECTION)
    then false else displayed e.
Proof.
  unfold touch.
  destruct (decide (k ∈ descendants this)) as [Hk|Hk].
  - rewrite (bool_decide_eq_true_2 _ Hk), hide_step_displayed.
    by case_decide.
  - by rewrite (bool_decide_eq_false_2 _ Hk); case_decide.
Qed.

Lemma touch_blocks (x a : Id) (this : element) (k : Id) (e : element) :
  notExistingParents (touch x a this k e) ∖ {[a]} = notExistingParents e ∖ {[a]}.
Proof.
  unfold touch.
  destruct (decide (x = k)) as [Hxk|Hxk], (decide (k ∈ descendants this)) as [Hk|Hk];
    repeat (rewrite ?hide_step_blocks, ?record_parent_difference; unfold block;
            cbn [set_notExistingParents notExistingParents]);
    done.
Qed.

Lemma difference_absent (S : gset Id) (a : Id) : a ∉ S -> S ∖ {[a]} = S.
Proof.
  intros Ha. apply set_eq. intros y.
  rewrite elem_of_difference, elem_of_singleton.
  split; [tauto|]. intros Hy. split; [done|]. by intros ->.
Qed.

(** X1: neither Block nor Unblock changes the [visible] flag, the
    coordinates or the Intersection fields of any object, nor what is
    registered on the board. *)
Theorem propagation_keeps_intent (b : board) (x a k : Id) :
  (visible_of (hideChild x a b) k = visible_of b k
   /\ coords_of (hideChild x a b) k = coords_of b k
   /\ data <$> heap (hideChild x a b) !! k = data <$> heap b !! k
   /\ objects (hideChild x a b) = objects b)
  /\
  (visible_of (showChild a b) k = visible_of b k
   /\ coords_of (showChild a b) k = coords_of b k
   /\ data <$> heap (showChild a b) !! k = data <$> heap b !! k
   /\ objects (showChild a b) = objects b).
Proof.
  split.
  - split; [apply visible_of_hideChild|].
    split; [unfold coords_of; apply hideChild_field; [apply hide_step_coords | done]|].
    split; [apply hideChild_field; [apply hide_step_data | done]|].
    apply hideChild_objects.
  - split; [unfold visible_of; apply showChild_field, show_step_visible|].
    split; [apply coords_of_showChild|].
    split; [apply showChild_field, show_step_data|].
    apply showChild_objects.
Qed.

(** X2: [hideChild] run by the object at [x] leaves every object that is
    neither [x] nor one of its descendants exactly as it was; on [x] itself,
    when it is not its own descendant, it does the one assignment
    [notExistingParents[a] = ...] and nothing more. *)
Theorem hideChild_touches_only_descendants
    (b : board) (x a : Id) (this : element) (k : Id) :
  heap b !! x = Some this ->
  k ∉ descendants this ->
  heap (hideChild x a b) !! k
  = if decide (x = k) then Some (block a this) else heap b !! k.
Proof.
  intros Hx Hk. rewrite (hideChild_lookup _ _ _ _ _ Hx).
  rewrite (decide_False (P := k ∈ descendants this)) by done.
  case_decide; [by rewrite Hx | done].
Qed.

Lemma hideChild_touches_only_descendants_witness :
  heap (hideChild "I" "I" (sample 0 true false)) !! "C"
  = if decide ("I" = "C") then Some (block "I" (sample_I true false))
    else heap (sample 0 true false) !! "C".
Proof.
  apply (hideChild_touches_only_descendants (sample 0 true false) "I" "I"
           (sample_I true false) "C").
  - vm_compute. reflexivity.
  - apply (bool_decide_unpack _). vm_compute. exact I.
Defined.

(** X3: [showChild(a)] leaves an object exactly as it was when the object is
    not registered on the board, and also when it does not carry [a] and is
    invisible, still blocked by another ancestor, or an Intersection. *)
Theorem showChild_leaves_alone (b : board) (a k : Id) (e : element) :
  heap b !! k = Some e ->
  (k ∉ objects b -> heap (showChild a b) !! k = Some e)
  /\ (a ∉ notExistingParents e ->
      visible e = false \/ notExistingParents e ≠ ∅
        \/ type e = OBJECT_TYPE_INTERSECTION ->
      heap (showChild a b) !! k = Some e).
Proof.
  intros He. rewrite showChild_lookup, He. split.
  - intros Hk. by rewrite decide_False.
  - intros Ha Hcond. case_decide; [|done]. simpl. f_equal.
    rewrite show_step_cases.
    assert (Hsame : set_notExistingParents (notExistingParents e ∖ {[a]}) e = e).
    { rewrite (difference_absent _ _ Ha). by destruct e. }
    assert (Hno : shows a e = false).
    { unfold shows. rewrite (difference_absent _ _ Ha).
      destruct Hcond as [Hv|[Hn|Ht]].
      - by rewrite Hv.
      - rewrite (bool_decide_eq_false_2 (size _ = 0)); [by rewrite andb_false_r|].
        intros Hs. apply Hn. apply size_empty_iff in Hs. by unfold_leibniz.
      - rewrite (bool_decide_eq_false_2 (type e ≠ _)); [by rewrite andb_false_r|].
        intros Hne. by apply Hne. }
    by rewrite Hno, Hsame.
Qed.

Lemma showChild_leaves_alone_witness :
  ("U" ∉ objects (sample 0 true false) ->
   heap (showChild "I" (sample 0 true false)) !! "U" = Some (plain OBJECT_TYPE_TEXT false))
  /\ ("I" ∉ notExistingParents (plain OBJECT_TYPE_TEXT false) ->
      visible (plain OBJECT_TYPE_TEXT false) = false
        \/ notExistingParents (plain OBJECT_TYPE_TEXT false) ≠ ∅
        \/ type (plain OBJECT_TYPE_TEXT false) = OBJECT_TYPE_INTERSECTION ->
      heap (showChild "I" (sample 0 true false)) !! "U" = Some (plain OBJECT_TYPE_TEXT false)).
Proof.
  apply (showChild_leaves_alone (sample 0 true false) "I" "U").
  vm_compute. reflexivity.
Defined.

(** X4: Block then Unblock with the same id, seen from a registered object
    that did not carry the id: its [notExistingParents], [visible] and [type]
    are back to what they were; it ends up displayed if it is visible, not
    blocked by anything and not an Intersection, hidden if it is a visible
    descendant that something else still blocks, and as it was otherwise. *)
Theorem hideChild_showChild_round_trip
    (b : board) (x a : Id) (this : element) (k : Id) (e : element) :
  heap b !! x = Some this ->
  heap b !! k = Some e ->
  k ∈ objects b ->
  a ∉ notExistingParents e ->
  exists e',
    heap (showChild a (hideChild x a b)) !! k = Some e'
    /\ notExistingParents e' = notExistingParents e
    /\ visible e' = visible e
    /\ type e' = type e
    /\ displayed e'
       = if visible e && bool_decide (size (notExistingParents e) = 0)
            && bool_decide (type e ≠ OBJECT_TYPE_INTERSECTION)
         then true
         else if bool_decide (k ∈ descendants this) && visible e
                 && bool_decide (type e ≠ OBJECT_TYPE_INTERSECTION)
              then false
              else displayed e.
Proof.
  intros Hx He Hk Ha.
  rewrite showChild_lookup, hideChild_objects, decide_True by done.
  rewrite (hideChild_pointwise _ _ _ _ _ Hx), He. simpl.
  eexists; split; [done|].
  pose proof (touch_blocks x a this k e) as Hb.
  rewrite (difference_absent _ _ Ha) in Hb.
  rewrite show_step_blocks, show_step_visible, show_step_type, show_step_displayed.
  rewrite touch_visible, touch_type, touch_displayed, Hb.
  unfold shows. by rewrite touch_visible, touch_type, Hb.
Qed.

Lemma hideChild_showChild_round_trip_witness :
  exists e',
    heap (showChild "I" (hideChild "I" "I" (sample 0 true false))) !! "T" = Some e'
    /\ notExistingParents e' = ∅
    /\ visible e' = true
    /\ displayed e' = true.
Proof.
  destruct (hideChild_showChild_round_trip (sample 0 true false) "I" "I"
              (sample_I true false) "T" (plain OBJECT_TYPE_TEXT true))
    as (e' & He' & Hn & Hv & _ & Hd).
  - vm_compute. reflexivity.
  - vm_compute. reflexivity.
  - apply (bool_decide_unpack _). vm_compute. exact I.
  - apply (bool_decide_unpack _). vm_compute. exact I.
  - exists e'. by repeat split.
Defined.

Lemma block_twice_unblock_twice_witness :
  let b2 := hideChild "J" "J" (hideChild "I" "I" (sample 0 true false)) in
  displayed_of b2 "T" = Some false
  /\ displayed_of (showChild "I" b2) "T" = Some false
  /\ displayed_of (showChild "J" (showChild "I" b2)) "T" = Some true.
Proof.
  apply (block_twice_unblock_twice (sample 0 true false) "I" "J"
           (sample_I true false) (sample_J true false) "T" (plain OBJECT_TYPE_TEXT true));
    try discriminate; try reflexivity; try (vm_compute; reflexivity);
    apply (bool_decide_unpack _); vm_compute; exact I.
Defined.

Lemma touch_ext (x a : Id) (t1 t2 : element) (k : Id) (e : element) :
  descendants t1 = descendants t2 -> touch x a t1 k e = touch x a t2 k e.
Proof. intros H. unfold touch. by rewrite H. Qed.

Lemma touch_twice_blocks (x a : Id) (this : element) (k : Id) (e : element) :
  notExistingParents (touch x a this k (touch x a this k e))
  = notExistingParents (touch x a this k e).
Proof.
  unfold touch.
  destruct (decide (x = k)) as [Hxk|Hxk], (decide (k ∈ descendants this)) as [Hk|Hk];
    repeat (rewrite ?hide_step_blocks; unfold block;
            cbn [set_notExistingParents notExistingParents]);
    try done; apply set_eq; intros y;
    rewrite !elem_of_record_parent; tauto.
Qed.

(** X6: the ancestor ids an object carries form a set.  A second Block with
    the same id, run by the same construct, changes neither the ids any
    object carries nor any [visible] or displayed state; only the call
    histories grow. *)
Theorem hideChild_twice_records_once
    (b : board) (x a : Id) (this : element) (k : Id) :
  heap b !! x = Some this ->
  notExistingParents <$> heap (hideChild x a (hideChild x a b)) !! k
  = notExistingParents <$> heap (hideChild x a b) !! k
  /\ visible_of (hideChild x a (hideChild x a b)) k = visible_of (hideChild x a b) k
  /\ displayed_of (hideChild x a (hideChild x a b)) k = displayed_of (hideChild x a b) k.
Proof.
  intros Hx.
  assert (Hx1 : heap (hideChild x a b) !! x = Some (touch x a this x this))
    by (by rewrite (hideChild_pointwise _ _ _ _ _ Hx), Hx).
  unfold visible_of, displayed_of.
  rewrite (hideChild_pointwise _ _ _ _ _ Hx1), (hideChild_pointwise _ _ _ _ _ Hx).
  destruct (heap b !! k) as [e|]; [|done]. simpl.
  rewrite (touch_ext x a _ this) by apply touch_descendants.
  split; [by rewrite touch_twice_blocks|].
  split; [by rewrite touch_visible|].
  rewrite touch_displayed, touch_visible, touch_type, touch_displayed.
  by destruct (_ && _).
Qed.

Lemma hideChild_twice_records_once_witness :
  notExistingParents <$> heap (hideChild "I" "I" (hideChild "I" "I" (sample 0 true false))) !! "T"
  = notExistingParents <$> heap (hideChild "I" "I" (sample 0 true false)) !! "T"
  /\ visible_of (hideChild "I" "I" (hideChild "I" "I" (sample 0 true false))) "T"
     = visible_of (hideChild "I" "I" (sample 0 true false)) "T"
  /\ displayed_of (hideChild "I" "I" (hideChild "I" "I" (sample 0 true false))) "T"
     = displayed_of (hideChild "I" "I" (sample 0 true false)) "T".
Proof.
  apply (hideChild_twice_records_once (sample 0 true false) "I" "I" (sample_I true false) "T").
  vm_compute. reflexivity.
Defined.

(** * Further properties of [update] *)

(** The two circle closures in one: [update] past its guards, on the
    answer of whichever solver the construct consults. *)
Lemma update_circle_unfold
    (b : board) (x : Id) (this : element) (c : construct) (s : solution)
    (q1 q2 : Id) (e1 e2 : element) :
  heap b !! x = Some this ->
  data this = Some c ->
  needsUpdate c = true ->
  solver_answer b c = Some s ->
  p1 c = Some q1 ->
  p2 c = Some q2 ->
  heap b !! q1 = Some e1 ->
  heap b !! q2 = Some e2 ->
  update x b
  = Some (upd_this x (set_needsUpdate false)
            (if bool_decide (count s = 0)
             then (if real c
                   then becomes_unreal x q1 q2 (visible e1) (visible e2) b
                   else b)
             else if bool_decide (kind c = CircleCircle) || bool_decide (count s = 2)
                  then writes_coordinates x q1 q2 (real c) s b
                  else b)).
Proof.
  intros Hx Hc Hn Hs Hp1 Hp2 He1 He2.
  unfold solver_answer in Hs. destruct (kind c) eqn:Hk; try done; injection Hs as <-.
  - by rewrite (update_CircleCircle_unfold _ _ _ _ _ _ _ _ Hx Hc Hn Hp1 Hp2 He1 He2 Hk).
  - by rewrite (update_CircleLine_unfold _ _ _ _ _ _ _ _ Hx Hc Hn Hp1 Hp2 He1 He2 Hk).
Qed.

(** X7: a dirty Line x Line construct's [update] writes the solver's answer
    into its point and does nothing else: [real] is as before whatever the
    solver said, no object changes its [visible] flag, displayed state, call
    history or [notExistingParents], and no other object's coordinates
    change. *)
Theorem update_LineLine_writes_point
    (b : board) (x : Id) (this : element) (c : construct) (q : Id) (e : element) :
  heap b !! x = Some this ->
  data this = Some c ->
  kind c = LineLine ->
  needsUpdate c = true ->
  p c = Some q ->
  heap b !! q = Some e ->
  exists b',
    update x b = Some b'
    /\ coords_of b' q
       = Some (intersectLineLine (algebra b) (intersect1 c) (intersect2 c))
    /\ is_real b' x = Some (real c)
    /\ objects b' = objects b
    /\ forall k,
         visible_of b' k = visible_of b k
         /\ displayed_of b' k = displayed_of b k
         /\ calls_of b' k = calls_of b k
         /\ notExistingParents <$> heap b' !! k = notExistingParents <$> heap b !! k
         /\ (k ≠ q -> coords_of b' k = coords_of b k).
Proof.
  intros Hx Hc Hk Hn Hp Hq.
  assert (Hup : update x b
                = Some (upd_this x (set_needsUpdate false)
                          (upd q (set_coords (intersectLineLine (algebra b)
                                                (intersect1 c) (intersect2 c))) b))).
  { unfold update. rewrite Hx; simpl; rewrite Hc; simpl. rewrite Hk.
    unfold update_LineLine. rewrite Hx; simpl; rewrite Hc; simpl.
    rewrite Hn, Hp; simpl. by rewrite Hq. }
  rewrite Hup.
  eexists; split; [done|].
  split; [rewrite coords_of_upd_this; by apply (coords_of_set _ _ _ e)|].
  split.
  { rewrite is_real_upd_this_needsUpdate, is_real_upd by done.
    by apply (is_real_intro _ _ this). }
  split; [done|].
  intros k. rewrite coords_of_upd_this.
  unfold visible_of, displayed_of, calls_of, upd_this.
  rewrite !upd_field by done.
  repeat split; try done.
  intros Hne. by apply coords_of_upd_ne.
Qed.

Lemma update_LineLine_writes_point_witness :
  exists b',
    update "L" (Board (sample_algebra 0)
                  (<["L" := Element OBJECT_TYPE_INTERSECTION true ∅ {["A"]} Undefined
                             false false []
                             (Some (Construct LineLine true true (RObject "l") (RObject "l")
                                      (Some "A") None None))]> (sample_heap true false))
                  sample_objects) = Some b'
    /\ coords_of b' "A" = Some (UsrCoords 1 1)
    /\ is_real b' "L" = Some true.
Proof.
  destruct (update_LineLine_writes_point
              (Board (sample_algebra 0)
                 (<["L" := Element OBJECT_TYPE_INTERSECTION true ∅ {["A"]} Undefined
                            false false []
                            (Some (Construct LineLine true true (RObject "l") (RObject "l")
                                     (Some "A") None None))]> (sample_heap true false))
                 sample_objects)
              "L"
              (Element OBJECT_TYPE_INTERSECTION true ∅ {["A"]} Undefined false false []
                 (Some (Construct LineLine true true (RObject "l") (RObject "l")
                          (Some "A") None None)))
              (Construct LineLine true true (RObject "l") (RObject "l") (Some "A") None None)
              "A" (plain OBJECT_TYPE_POINT true))
    as (b' & Hup & Hco & Hre & _);
    try reflexivity; try (vm_compute; reflexivity).
  exists b'. by repeat split.
Defined.

(** X8: when the reality of a dirty circle construct does not change,
    [update] propagates nothing.  If the construct is already unreal and the
    solver still finds nothing, or if a Circle x Line solver reports a count
    other than 0 and 2, the only effect is that [needsUpdate] is cleared; if
    the construct is real and stays real, only coordinates are written: no
    [visible] flag, displayed state, call history or [notExistingParents]
    changes anywhere. *)
Theorem update_without_transition
    (b : board) (x : Id) (this : element) (c : construct) (s : solution)
    (q1 q2 : Id) (e1 e2 : element) :
  heap b !! x = Some this ->
  data this = Some c ->
  needsUpdate c = true ->
  solver_answer b c = Some s ->
  p1 c = Some q1 ->
  p2 c = Some q2 ->
  heap b !! q1 = Some e1 ->
  heap b !! q2 = Some e2 ->
  ((count s = 0 /\ real c = false)
   \/ (kind c = CircleLine /\ count s ≠ 0 /\ count s ≠ 2) ->
   update x b = Some (upd_this x (set_needsUpdate false) b))
  /\
  (real c = true ->
   (kind c = CircleCircle /\ count s ≠ 0) \/ (kind c = CircleLine /\ count s = 2) ->
   exists b',
     update x b = Some b'
     /\ is_real b' x = Some true
     /\ forall k,
          visible_of b' k = visible_of b k
          /\ displayed_of b' k = displayed_of b k
          /\ calls_of b' k = calls_of b k
          /\ notExistingParents <$> heap b' !! k = notExistingParents <$> heap b !! k).
Proof.
  intros Hx Hc Hn Hs Hp1 Hp2 He1 He2.
  rewrite (update_circle_unfold _ _ _ _ _ _ _ _ _ Hx Hc Hn Hs Hp1 Hp2 He1 He2).
  split.
  - intros [[H0 Hr]|(Hk & H0 & H2)].
    + by rewrite bool_decide_eq_true_2, Hr by done.
    + rewrite (bool_decide_eq_false_2 (count s = 0)) by done.
      rewrite (bool_decide_eq_false_2 (kind c = CircleCircle)) by (by rewrite Hk).
      by rewrite (bool_decide_eq_false_2 (count s = 2)) by done.
  - intros Hr Hcase.
    assert (H0 : count s ≠ 0) by (destruct Hcase as [[_ ?]|[_ ?]]; [done | lia]).
    assert (Hgo : bool_decide (kind c = CircleCircle) || bool_decide (count s = 2) = true).
    { destruct Hcase as [[Hk _]|[_ H2]].
      - by rewrite (bool_decide_eq_true_2 _ Hk).
      - by rewrite (bool_decide_eq_true_2 _ H2), orb_true_r. }
    rewrite (bool_decide_eq_false_2 _ H0), Hgo.
    unfold writes_coordinates. rewrite Hr. cbn [negb].
    eexists; split; [done|].
    split.
    { rewrite is_real_upd_this_needsUpdate, !is_real_upd by done.
      by rewrite (is_real_intro _ _ _ _ Hx Hc), Hr. }
    intros k. unfold visible_of, displayed_of, calls_of, upd_this.
    rewrite !upd_field by done. done.
Qed.

Lemma update_without_transition_witness :
  exists b',
    update "I" (sample 2 true true) = Some b'
    /\ is_real b' "I" = Some true
    /\ calls_of b' "T" = calls_of (sample 2 true true) "T".
Proof.
  destruct (update_without_transition (sample 2 true true) "I" (sample_I true true)
              (Construct CircleCircle true true (RObject "c1") (RObject "c2")
                 None (Some "A") (Some "B"))
              (Solution 2 (UsrCoords 3 4) (UsrCoords 3 (-4)))
              "A" "B" (plain OBJECT_TYPE_POINT true) (plain OBJECT_TYPE_POINT true))
    as [_ Hreal]; try reflexivity; try (vm_compute; reflexivity).
  destruct Hreal as (b' & Hup & Hre & Hall); [reflexivity | left; by split |].
  exists b'. split; [done|]. split; [done|]. apply Hall.
Defined.

(** X9: when a dirty circle construct that is not real is told of a solution
    (any for Circle x Circle, two for Circle x Line), [update] makes it real
    and afterwards no object registered on the board carries the construct's
    id in its [notExistingParents]. *)
Theorem update_real_transition_unblocks
    (b : board) (x : Id) (this : element) (c : construct) (s : solution)
    (q1 q2 : Id) (e1 e2 : element) :
  heap b !! x = Some this ->
  data this = Some c ->
  needsUpdate c = true ->
  real c = false ->
  solver_answer b c = Some s ->
  (kind c = CircleCircle /\ count s ≠ 0) \/ (kind c = CircleLine /\ count s = 2) ->
  p1 c = Some q1 ->
  p2 c = Some q2 ->
  heap b !! q1 = Some e1 ->
  heap b !! q2 = Some e2 ->
  exists b',
    update x b = Some b'
    /\ is_real b' x = Some true
    /\ forall k e', k ∈ objects b -> heap b' !! k = Some e' ->
         x ∉ notExistingParents e'.
Proof.
  intros Hx Hc Hn Hr Hs Hcase Hp1 Hp2 He1 He2.
  rewrite (update_circle_unfold _ _ _ _ _ _ _ _ _ Hx Hc Hn Hs Hp1 Hp2 He1 He2).
  assert (H0 : count s ≠ 0) by (destruct Hcase as [[_ ?]|[_ ?]]; [done | lia]).
  assert (Hgo : bool_decide (kind c = CircleCircle) || bool_decide (count s = 2) = true).
  { destruct Hcase as [[Hk _]|[_ H2]].
    - by rewrite (bool_decide_eq_true_2 _ Hk).
    - by rewrite (bool_decide_eq_true_2 _ H2), orb_true_r. }
  rewrite (bool_decide_eq_false_2 _ H0), Hgo.
  eexists; split; [done|].
  split.
  { rewrite is_real_upd_this_needsUpdate.
    eapply writes_coordinates_is_real; eauto. }
  intros k e' Hk He'.
  assert (Hn' : notExistingParents <$> heap (upd_this x (set_needsUpdate false)
                   (writes_coordinates x q1 q2 (real c) s b)) !! k
                = Some (notExistingParents e')) by (by rewrite He').
  unfold writes_coordinates in Hn'. rewrite Hr in Hn'. cbn [negb] in Hn'.
  unfold upd_this in Hn'. rewrite !upd_field in Hn' by done.
  rewrite showChild_lookup in Hn'. cbn [upd objects] in Hn'.
  rewrite decide_True in Hn' by done.
  destruct (heap (upd q2 _ _) !! k) as [e0|]; [|done].
  apply (inj Some) in Hn'. rewrite <- Hn', show_step_blocks.
  rewrite elem_of_difference, elem_of_singleton. tauto.
Qed.

Lemma update_real_transition_unblocks_witness :
  exists b',
    update "I" (set_algebra (sample_algebra 2) (mark_dirty "I" (upd_this "I" (set_real false) sample_blocked))) = Some b'
    /\ is_real b' "I" = Some true
    /\ forall k e', k ∈ objects sample_blocked -> heap b' !! k = Some e' ->
         "I" ∉ notExistingParents e'.
Proof.
  apply (update_real_transition_unblocks
           (set_algebra (sample_algebra 2) (mark_dirty "I" (upd_this "I" (set_real false) sample_blocked))) "I"
           (Element OBJECT_TYPE_INTERSECTION true {["I"]} {["A"; "B"; "T"; "U"]}
              Undefined false false []
              (Some (Construct CircleCircle false true (RObject "c1") (RObject "c2")
                       None (Some "A") (Some "B"))))
           (Construct CircleCircle false true (RObject "c1") (RObject "c2")
              None (Some "A") (Some "B"))
           (Solution 2 (UsrCoords 3 4) (UsrCoords 3 (-4)))
           "A" "B"
           (Element OBJECT_TYPE_POINT true {["I"]} ∅ Undefined false false
              [HideElement] None)
           (Element OBJECT_TYPE_POINT true {["I"]} ∅ Undefined false false
              [HideElement] None));
    try reflexivity; try (vm_compute; reflexivity).
  left. split; [reflexivity|]. vm_compute. discriminate.
Defined.

(** The board after the unreal transition, field by field. *)

Lemma becomes_unreal_visible
    (b : board) (x q1 q2 : Id) (e1 e2 : element) (k : Id) :
  heap b !! q1 = Some e1 ->
  heap b !! q2 = Some e2 ->
  visible_of (becomes_unreal x q1 q2 (visible e1) (visible e2) b) k = visible_of b k.
Proof.
  intros He1 He2. unfold becomes_unreal. rewrite visible_of_upd_this.
  apply visible_of_restore; [|by unfold visible_of; rewrite He2].
  apply visible_of_restore; [|by unfold visible_of; rewrite He1].
  intros k'. apply visible_of_hideChild.
Qed.

Lemma becomes_unreal_shown_state
    (b : board) (x q1 q2 : Id) (v1 v2 : bool) (this : element) (k : Id) :
  heap b !! x = Some this ->
  shown_state <$> heap (becomes_unreal x q1 q2 v1 v2 b) !! k
  = shown_state <$> (touch x x this k <$> heap b !! k).
Proof.
  intros Hx. unfold becomes_unreal, upd_this.
  rewrite !upd_field by done. by rewrite (hideChild_pointwise _ _ _ _ _ Hx).
Qed.

Lemma data_upd_this (f : construct -> construct) (x : Id) (b : board) (c : construct) :
  data <$> heap b !! x = Some (Some c) ->
  data <$> heap (upd_this x f b) !! x = Some (Some (f c)).
Proof.
  intros H. unfold upd_this. cbn [upd heap]. rewrite lookup_alter_eq.
  destruct (heap b !! x) as [t|]; [|done]. simpl in *.
  apply (inj Some) in H. by rewrite H.
Qed.

Lemma becomes_unreal_data
    (b : board) (x q1 q2 : Id) (v1 v2 : bool) (this : element) (c : construct) :
  heap b !! x = Some this ->
  data this = Some c ->
  data <$> heap (becomes_unreal x q1 q2 v1 v2 b) !! x = Some (Some (set_real false c)).
Proof.
  intros Hx Hc. unfold becomes_unreal. apply data_upd_this.
  rewrite !upd_field by done.
  rewrite hideChild_field; [by rewrite Hx; simpl; rewrite Hc | apply hide_step_data | done].
Qed.

(** X10: a construct disappears and comes back.  A dirty, real circle
    construct is told of no solution and updates; then its parents move, it
    is marked dirty again and the solver finds solutions.  After the second
    [update] the construct is real, and every registered object that did not
    carry the construct's id has its [notExistingParents] and [visible] flag
    as at the start, and is displayed if it is visible, unblocked and not an
    Intersection. *)
Theorem update_unreal_then_real_round_trip
    (b : board) (x : Id) (this : element) (c : construct) (s : solution)
    (q1 q2 : Id) (e1 e2 : element) (alg' : Algebra) (s' : solution) :
  heap b !! x = Some this ->
  data this = Some c ->
  needsUpdate c = true ->
  real c = true ->
  solver_answer b c = Some s ->
  count s = 0 ->
  p1 c = Some q1 ->
  p2 c = Some q2 ->
  heap b !! q1 = Some e1 ->
  heap b !! q2 = Some e2 ->
  solver_answer (set_algebra alg' b) c = Some s' ->
  (kind c = CircleCircle /\ count s' ≠ 0) \/ (kind c = CircleLine /\ count s' = 2) ->
  exists b1 b2,
    update x b = Some b1
    /\ update x (set_algebra alg' (mark_dirty x b1)) = Some b2
    /\ is_real b1 x = Some false
    /\ is_real b2 x = Some true
    /\ forall k e,
         k ∈ objects b ->
         heap b !! k = Some e ->
         x ∉ notExistingParents e ->
         exists e',
           heap b2 !! k = Some e'
           /\ notExistingParents e' = notExistingParents e
           /\ visible e' = visible e
           /\ (visible e = true -> notExistingParents e = ∅ ->
               type e ≠ OBJECT_TYPE_INTERSECTION -> displayed e' = true).
Proof.
  intros Hx Hc Hn Hr Hs H0 Hp1 Hp2 He1 He2 Hs' Hcase.
  set (bu := becomes_unreal x q1 q2 (visible e1) (visible e2) b).
  set (b1 := upd_this x (set_needsUpdate false) bu).
  set (B := set_algebra alg' (mark_dirty x b1)).
  set (cB := set_needsUpdate true (set_needsUpdate false (set_real false c))).
  assert (Hup1 : update x b = Some b1).
  { rewrite (update_circle_unfold _ _ _ _ _ _ _ _ _ Hx Hc Hn Hs Hp1 Hp2 He1 He2).
    by rewrite bool_decide_eq_true_2, Hr by done. }
  assert (HvisB : forall k, visible_of B k = visible_of b k).
  { intros k. unfold B, mark_dirty, b1.
    change (visible_of (set_algebra alg' ?y) k) with (visible_of y k).
    rewrite !visible_of_upd_this. by apply becomes_unreal_visible. }
  assert (HdataB : data <$> heap B !! x = Some (Some cB)).
  { unfold B, mark_dirty, b1, cB. cbn [set_algebra heap].
    do 2 apply data_upd_this. by apply (becomes_unreal_data _ _ _ _ _ _ this). }
  apply fmap_Some in HdataB as (thisB & HxB & HcB). symmetry in HcB.
  assert (Hq1B : exists e1B, heap B !! q1 = Some e1B).
  { specialize (HvisB q1). unfold visible_of in HvisB. rewrite He1 in HvisB.
    destruct (heap B !! q1); [eauto | done]. }
  assert (Hq2B : exists e2B, heap B !! q2 = Some e2B).
  { specialize (HvisB q2). unfold visible_of in HvisB. rewrite He2 in HvisB.
    destruct (heap B !! q2); [eauto | done]. }
  destruct Hq1B as [e1B Hq1B]. destruct Hq2B as [e2B Hq2B].
  assert (H0' : count s' ≠ 0) by (destruct Hcase as [[_ ?]|[_ ?]]; [done | lia]).
  assert (Hgo : bool_decide (kind cB = CircleCircle) || bool_decide (count s' = 2) = true).
  { destruct Hcase as [[Hk _]|[_ H2]].
    - by rewrite (bool_decide_eq_true_2 _ Hk).
    - by rewrite (bool_decide_eq_true_2 _ H2), orb_true_r. }
  set (b2 := upd_this x (set_needsUpdate false) (writes_coordinates x q1 q2 false s' B)).
  assert (Hup2 : update x B = Some b2).
  { rewrite (update_circle_unfold B x thisB cB s' q1 q2 e1B e2B); try done.
    by rewrite (bool_decide_eq_false_2 _ H0'), Hgo. }
  exists b1, b2. split; [done|]. split; [done|].
  split.
  { unfold b1. rewrite is_real_upd_this_needsUpdate.
    eapply becomes_unreal_is_real; eauto. }
  split.
  { unfold b2. rewrite is_real_upd_this_needsUpdate.
    by apply (writes_coordinates_is_real _ _ thisB cB). }
  intros k e Hk He Ha.
  set (B2 := upd q2 (set_coords (sol2 s')) (upd q1 (set_coords (sol1 s')) B)).
  assert (HshB2 : shown_state <$> heap B2 !! k = Some (shown_state (touch x x this k e))).
  { unfold B2, B, mark_dirty, b1, upd_this.
    rewrite !upd_field by done. cbn [set_algebra heap].
    rewrite !upd_field by done. unfold bu.
    by rewrite (becomes_unreal_shown_state _ _ _ _ _ _ this), He. }
  assert (HviB2 : visible_of B2 k = Some (visible e)).
  { unfold B2, visible_of. rewrite !upd_field by done.
    fold (visible_of B k). rewrite HvisB. unfold visible_of. by rewrite He. }
  apply fmap_Some in HshB2 as (eB2 & HeB2 & Hsh).
  unfold visible_of in HviB2. rewrite HeB2 in HviB2. apply (inj Some) in HviB2.
  injection Hsh as Hn2 Ht2 Hd2.
  assert (HkB2 : k ∈ objects B2).
  { unfold B2, B, mark_dirty, b1, bu, becomes_unreal, upd_this, upd, set_algebra.
    cbn [objects]. by rewrite hideChild_objects. }
  assert (Hlook : heap (showChild x B2) !! k = Some (show_step x eB2))
    by (by rewrite showChild_lookup, decide_True, HeB2).
  assert (Hfin : (fun e0 => (shown_state e0, visible e0)) <$> heap b2 !! k
                 = Some (shown_state (show_step x eB2), visible (show_step x eB2))).
  { unfold b2, writes_coordinates. cbn [negb]. fold B2. unfold upd_this.
    rewrite !upd_field by done. by rewrite Hlook. }
  apply fmap_Some in Hfin as (e' & He' & Hf).
  injection Hf as Hn' Ht' Hd' Hv'.
  pose proof (touch_blocks x x this k e) as Hb.
  rewrite (difference_absent _ _ Ha) in Hb.
  exists e'. split; [done|].
  split; [by rewrite <- Hn', show_step_blocks, <- Hn2|].
  split; [by rewrite <- Hv', show_step_visible|].
  intros Hvis Hnone Htype.
  rewrite <- Hd', show_step_displayed.
  assert (Hyes : shows x eB2 = true).
  { unfold shows. rewrite HviB2, Hvis, <- Hn2, <- Ht2, Hb, touch_type, Hnone.
    rewrite (bool_decide_eq_true_2 _ Htype).
    by rewrite bool_decide_eq_true_2 by apply size_empty. }
  by rewrite Hyes.
Qed.

Lemma update_unreal_then_real_round_trip_witness :
  exists b1 b2,
    update "I" (sample 0 true true) = Some b1
    /\ update "I" (set_algebra (sample_algebra 2) (mark_dirty "I" b1)) = Some b2
    /\ is_real b1 "I" = Some false
    /\ is_real b2 "I" = Some true
    /\ exists e', heap b2 !! "T" = Some e' /\ displayed e' = true.
Proof.
  destruct (update_unreal_then_real_round_trip (sample 0 true true) "I" (sample_I true true)
              (Construct CircleCircle true true (RObject "c1") (RObject "c2")
                 None (Some "A") (Some "B"))
              (Solution 0 (UsrCoords 3 4) (UsrCoords 3 (-4)))
              "A" "B" (plain OBJECT_TYPE_POINT true) (plain OBJECT_TYPE_POINT true)
              (sample_algebra 2) (Solution 2 (UsrCoords 3 4) (UsrCoords 3 (-4))))
    as (b1 & b2 & H1 & H2 & Hr1 & Hr2 & Hall).
  { vm_compute. reflexivity. }
  { reflexivity. }
  { reflexivity. }
  { reflexivity. }
  { reflexivity. }
  { reflexivity. }
  { reflexivity. }
  { reflexivity. }
  { vm_compute. reflexivity. }
  { vm_compute. reflexivity. }
  { reflexivity. }
  { left. split; [reflexivity | discriminate]. }
  exists b1, b2. do 4 (split; [done|]).
  destruct (Hall "T" (plain OBJECT_TYPE_TEXT true)) as (e' & He' & _ & _ & Hd).
  - apply (bool_decide_unpack _). vm_compute. exact I.
  - vm_compute. reflexivity.
  - apply (bool_decide_unpack _). vm_compute. exact I.
  - exists e'. split; [done|]. by apply Hd.
Defined.

(** * The construct's own [hideElement] and [showElement] *)

Lemma on_points_circle
    (f : element -> element) (c : construct) (b : board) (q1 q2 : Id) (e1 e2 : element) :
  kind c = CircleCircle \/ kind c = CircleLine ->
  p1 c = Some q1 ->
  p2 c = Some q2 ->
  heap b !! q1 = Some e1 ->
  heap b !! q2 = Some e2 ->
  on_points f c b = Some (upd q2 f (upd q1 f b)).
Proof.
  intros Hk Hp1 Hp2 He1 He2. unfold on_points.
  destruct Hk as [->| ->]; rewrite Hp1; simpl; rewrite He1; simpl;
    rewrite Hp2; simpl; by rewrite He2.
Qed.

Lemma lookup_upd (f : element -> element) (i k : Id) (b : board) :
  heap (upd i f b) !! k = if decide (i = k) then f <$> heap b !! k else heap b !! k.
Proof. cbn [upd heap]. rewrite lookup_alter. by case_decide; subst. Qed.

(** X11: [hideElement] on a circle construct clears the construct's
    [visible] flag and hides both points, clearing theirs; it records no
    blocking ancestor anywhere, changes no coordinate and no Intersection
    field, and leaves every other object as it was. *)
Theorem Intersection_hideElement_effect
    (b : board) (x : Id) (this : element) (c : construct) (q1 q2 : Id) (e1 e2 : element) :
  heap b !! x = Some this ->
  data this = Some c ->
  kind c = CircleCircle \/ kind c = CircleLine ->
  p1 c = Some q1 ->
  p2 c = Some q2 ->
  heap b !! q1 = Some e1 ->
  heap b !! q2 = Some e2 ->
  exists b',
    Intersection_hideElement x b = Some b'
    /\ visible_of b' x = Some false
    /\ visible_of b' q1 = Some false /\ displayed_of b' q1 = Some false
    /\ visible_of b' q2 = Some false /\ displayed_of b' q2 = Some false
    /\ objects b' = objects b
    /\ forall k,
         notExistingParents <$> heap b' !! k = notExistingParents <$> heap b !! k
         /\ coords_of b' k = coords_of b k
         /\ data <$> heap b' !! k = data <$> heap b !! k
         /\ (k ≠ x -> k ≠ q1 -> k ≠ q2 -> heap b' !! k = heap b !! k).
Proof.
  intros Hx Hc Hk Hp1 Hp2 He1 He2.
  assert (Hq1 : exists e, heap (upd x (set_visible false) b) !! q1 = Some e).
  { rewrite lookup_upd. case_decide; rewrite He1; simpl; eauto. }
  assert (Hq2 : exists e, heap (upd x (set_visible false) b) !! q2 = Some e).
  { rewrite lookup_upd. case_decide; rewrite He2; simpl; eauto. }
  destruct Hq1 as [e1' Hq1]. destruct Hq2 as [e2' Hq2].
  unfold Intersection_hideElement. rewrite Hx; simpl; rewrite Hc; simpl.
  rewrite (on_points_circle _ _ _ _ _ _ _ Hk Hp1 Hp2 Hq1 Hq2).
  eexists; split; [done|].
  unfold visible_of, displayed_of, coords_of.
  split.
  { rewrite !lookup_upd, Hx. repeat case_decide; done. }
  split.
  { rewrite !lookup_upd, He1. repeat case_decide; done. }
  split.
  { rewrite !lookup_upd, He1. repeat case_decide; done. }
  split.
  { rewrite !lookup_upd, He2. repeat case_decide; done. }
  split.
  { rewrite !lookup_upd, He2. repeat case_decide; done. }
  split; [done|].
  intros k. rewrite !upd_field by done.
  repeat split; try done.
  intros H1 H2 H3. rewrite !lookup_upd.
  by rewrite !decide_False by done.
Qed.

Lemma Intersection_hideElement_effect_witness :
  exists b',
    Intersection_hideElement "I" (sample 2 true false) = Some b'
    /\ visible_of b' "I" = Some false
    /\ displayed_of b' "A" = Some false
    /\ displayed_of b' "B" = Some false.
Proof.
  destruct (Intersection_hideElement_effect (sample 2 true false) "I" (sample_I true false)
              (Construct CircleCircle true false (RObject "c1") (RObject "c2")
                 None (Some "A") (Some "B"))
              "A" "B" (plain OBJECT_TYPE_POINT true) (plain OBJECT_TYPE_POINT true))
    as (b' & H & Hv & _ & HA & _ & HB & _);
    try reflexivity; try (vm_compute; reflexivity).
  { by left. }
  exists b'. by repeat split.
Defined.

(** X12: [showElement] on a circle construct sets the construct's [visible]
    flag and shows both points, whatever the construct's [real] flag and
    whatever blocking ancestors the points carry: neither is read, and
    neither is changed. *)
Theorem Intersection_showElement_unconditional
    (b : board) (x : Id) (this : element) (c : construct) (q1 q2 : Id) (e1 e2 : element) :
  heap b !! x = Some this ->
  data this = Some c ->
  kind c = CircleCircle \/ kind c = CircleLine ->
  p1 c = Some q1 ->
  p2 c = Some q2 ->
  heap b !! q1 = Some e1 ->
  heap b !! q2 = Some e2 ->
  exists b',
    Intersection_showElement x b = Some b'
    /\ visible_of b' x = Some true
    /\ visible_of b' q1 = Some true /\ displayed_of b' q1 = Some true
    /\ visible_of b' q2 = Some true /\ displayed_of b' q2 = Some true
    /\ is_real b' x = Some (real c)
    /\ forall k,
         notExistingParents <$> heap b' !! k = notExistingParents <$> heap b !! k.
Proof.
  intros Hx Hc Hk Hp1 Hp2 He1 He2.
  assert (Hq1 : exists e, heap (upd x (set_visible true) b) !! q1 = Some e).
  { rewrite lookup_upd. case_decide; rewrite He1; simpl; eauto. }
  assert (Hq2 : exists e, heap (upd x (set_visible true) b) !! q2 = Some e).
  { rewrite lookup_upd. case_decide; rewrite He2; simpl; eauto. }
  destruct Hq1 as [e1' Hq1]. destruct Hq2 as [e2' Hq2].
  unfold Intersection_showElement. rewrite Hx; simpl; rewrite Hc; simpl.
  rewrite (on_points_circle _ _ _ _ _ _ _ Hk Hp1 Hp2 Hq1 Hq2).
  eexists; split; [done|].
  unfold visible_of, displayed_of.
  split.
  { rewrite !lookup_upd, Hx. repeat case_decide; done. }
  split.
  { rewrite !lookup_upd, He1. repeat case_decide; done. }
  split.
  { rewrite !lookup_upd, He1. repeat case_decide; done. }
  split.
  { rewrite !lookup_upd, He2. repeat case_decide; done. }
  split.
  { rewrite !lookup_upd, He2. repeat case_decide; done. }
  split.
  { rewrite !is_real_upd by done. by apply (is_real_intro _ _ this). }
  intros k. by rewrite !upd_field by done.
Qed.

Lemma Intersection_showElement_unconditional_witness :
  exists b',
    Intersection_showElement "I" (upd_this "I" (set_real false) sample_blocked) = Some b'
    /\ is_real b' "I" = Some false
    /\ displayed_of b' "A" = Some true
    /\ (notExistingParents <$> heap b' !! "A") = Some {["I"]}.
Proof.
  destruct (Intersection_showElement_unconditional
              (upd_this "I" (set_real false) sample_blocked) "I"
              (Element OBJECT_TYPE_INTERSECTION true {["I"]} {["A"; "B"; "T"; "U"]}
                 Undefined false false []
                 (Some (Construct CircleCircle false false (RObject "c1") (RObject "c2")
                          None (Some "A") (Some "B"))))
              (Construct CircleCircle false false (RObject "c1") (RObject "c2")
                 None (Some "A") (Some "B"))
              "A" "B"
              (Element OBJECT_TYPE_POINT true {["I"]} ∅ Undefined false false
                 [HideElement] None)
              (Element OBJECT_TYPE_POINT true {["I"]} ∅ Undefined false false
                 [HideElement] None))
    as (b' & H & _ & _ & HA & _ & _ & Hr & Hn);
    try reflexivity; try (vm_compute; reflexivity).
  { by left. }
  exists b'. split; [done|]. split; [done|]. split; [done|].
  rewrite Hn. vm_compute. reflexivity.
Defined.

(** * Further properties of the constructor *)

(** X13: the two type tests of the constructor, on any two [.type] reads,
    defined or not.  The test of line 117 holds exactly when both types are
    line-like, the test of line 195 exactly when both are circle-like; a
    missing type passes neither, and no pair passes both. *)
Theorem type_tests_characterised (t1 t2 : option objType) :
  line_line_test t1 t2 = from_option line_like false t1 && from_option line_like false t2
  /\ circle_circle_test t1 t2
     = from_option circle_like false t1 && from_option circle_like false t2
  /\ line_line_test t1 t2 && circle_circle_test t1 t2 = false.
Proof. destruct t1 as [[]|], t2 as [[]|]; done. Qed.

Lemma line_line_test_live (t1 t2 : objType) :
  line_line_test (Some t1) (Some t2) = line_like t1 && line_like t2.
Proof. destruct t1, t2; done. Qed.

Lemma circle_circle_test_live (t1 t2 : objType) :
  circle_circle_test (Some t1) (Some t2) = circle_like t1 && circle_like t2.
Proof. destruct t1, t2; done. Qed.

Lemma line_or_arrow_live (t : objType) : line_or_arrow (Some t) = line_like t.
Proof. by destruct t. Qed.

(** X14: the constructor on two live parents always succeeds and registers
    a construct whose branch is the one the two types call for: Line x Line
    for two line-likes, Circle x Circle for two circle-likes, Circle x Line
    for everything else.  In the last branch a line-like first parent is
    swapped into second place, in the others the order is kept; the
    construct owns one point in the first branch and two in the others. *)
Theorem Intersection_classifies
    (b : board) (Id_ i1 i2 : Id) (e1 e2 : element) (q1 q2 : Id) :
  heap b !! i1 = Some e1 ->
  heap b !! i2 = Some e2 ->
  exists b' this c,
    Intersection b Id_ (PObject i1) (PObject i2) q1 q2 = Some b'
    /\ heap b' !! Id_ = Some this
    /\ data this = Some c
    /\ kind c = classify (type e1) (type e2)
    /\ (intersect1 c, intersect2 c)
       = (if bool_decide (classify (type e1) (type e2) = CircleLine) && line_like (type e1)
          then (RObject i2, RObject i1) else (RObject i1, RObject i2))
    /\ owned_points c
       = (if bool_decide (classify (type e1) (type e2) = LineLine)
          then {[q1]} else {[q1; q2]})
    /\ Id_ ∈ objects b'.
Proof.
  intros H1 H2. unfold Intersection. cbn -[two_points addIntersection].
  rewrite H1, H2. cbn -[two_points addIntersection].
  rewrite line_line_test_live, circle_circle_test_live, line_or_arrow_live.
  unfold classify.
  destruct (line_like (type e1)), (line_like (type e2)),
    (circle_like (type e1)), (circle_like (type e2)); cbn [andb];
    repeat case_bool_decide; try done;
    (eexists _, _, _; split; [done|]; rewrite addIntersection_this;
     split; [done|]; split; [done|]; split; [done|]; split; [done|];
     split; [unfold owned_points, owned; cbn [p p1 p2];
             apply set_eq; intros y;
             rewrite ?elem_of_union, ?elem_of_singleton, ?elem_of_empty; tauto
            |unfold addIntersection; cbn [objects];
             apply elem_of_union; left; by apply elem_of_singleton]).
Qed.

Lemma Intersection_classifies_witness :
  exists b' this c,
    Intersection (sample 2 true false) "K" (PObject "l") (PObject "c1") "P" "Q" = Some b'
    /\ heap b' !! "K" = Some this
    /\ data this = Some c
    /\ kind c = CircleLine
    /\ (intersect1 c, intersect2 c) = (RObject "c1", RObject "l").
Proof.
  destruct (Intersection_classifies (sample 2 true false) "K" "l" "c1"
              (plain OBJECT_TYPE_LINE true) (plain OBJECT_TYPE_CIRCLE true) "P" "Q")
    as (b' & this & c & H & Ht & Hc & Hk & Hi & _);
    try (vm_compute; reflexivity).
  exists b', this, c. by repeat split.
Defined.

(** X15: the Line x Line branch: one point, registered under the first
    point id, fixed, visible and displayed, at the coordinates the line
    solver gave; the construct is real, registered, and has that point as
    its only descendant.  The second point id is not used. *)
Theorem Intersection_LineLine_construction
    (b : board) (Id_ i1 i2 : Id) (e1 e2 : element) (q1 q2 : Id) :
  heap b !! i1 = Some e1 ->
  heap b !! i2 = Some e2 ->
  line_like (type e1) = true ->
  line_like (type e2) = true ->
  Id_ ≠ q1 ->
  exists b' this,
    Intersection b Id_ (PObject i1) (PObject i2) q1 q2 = Some b'
    /\ heap b' !! Id_ = Some this
    /\ data this
       = Some (Construct LineLine true false (RObject i1) (RObject i2) (Some q1) None None)
    /\ descendants this = {[q1]}
    /\ heap b' !! q1
       = Some (Element OBJECT_TYPE_POINT true ∅ ∅
                 (intersectLineLine (algebra b) (RObject i1) (RObject i2))
                 true true [] None)
    /\ objects b' = {[Id_]} ∪ ({[q1]} ∪ objects b).
Proof.
  intros H1 H2 Hl1 Hl2 Hne. unfold Intersection. cbn -[addIntersection].
  rewrite H1, H2. cbn -[addIntersection].
  rewrite line_line_test_live, Hl1, Hl2. cbn [andb].
  eexists _, _. split; [done|]. rewrite addIntersection_this.
  split; [done|]. split; [done|].
  split.
  { unfold set_data, addChild. cbn [descendants]. rewrite lookup_upd, decide_True by done.
    unfold new_Point. cbn [heap]. rewrite lookup_insert_eq. simpl.
    apply set_eq. intros y.
    rewrite !elem_of_union, elem_of_singleton, !elem_of_empty. tauto. }
  split; [|done].
  rewrite addIntersection_other by done.
  rewrite lookup_upd, decide_True by done.
  unfold new_Point. cbn [heap]. by rewrite lookup_insert_eq.
Qed.

Lemma Intersection_LineLine_construction_witness :
  exists b' this,
    Intersection (sample 2 true false) "K" (PObject "l") (PObject "l") "P" "Q" = Some b'
    /\ heap b' !! "K" = Some this
    /\ heap b' !! "P"
       = Some (Element OBJECT_TYPE_POINT true ∅ ∅ (UsrCoords 1 1) true true [] None)
    /\ "Q" ∉ objects b'.
Proof.
  destruct (Intersection_LineLine_construction (sample 2 true false) "K" "l" "l"
              (plain OBJECT_TYPE_LINE true) (plain OBJECT_TYPE_LINE true) "P" "Q")
    as (b' & this & H & Ht & _ & _ & HP & Hobj);
    try discriminate; try reflexivity; try (vm_compute; reflexivity).
  exists b', this. split; [done|]. split; [done|]. split; [done|].
  rewrite Hobj. apply (bool_decide_unpack _). vm_compute. exact I.
Defined.

Lemma classify_CircleLine (t1 t2 : objType) :
  classify t1 t2 = CircleLine ->
  line_like t1 && line_like t2 = false /\ circle_like t1 && circle_like t2 = false.
Proof.
  unfold classify. destruct (line_like t1 && line_like t2); [done|].
  by destruct (circle_like t1 && circle_like t2).
Qed.

(** X16: the last branch of the constructor, on two live parents that are
    neither both line-like nor both circle-like.  The solver is asked with a
    line-like first parent moved to second place.  One solution: the
    construct is real, the first point is shown at it, the second stays
    hidden at the origin.  Two solutions: real, both points shown at them.
    Any other count: not real, both points hidden at the origin. *)
Theorem Intersection_CircleLine_construction
    (b : board) (Id_ i1 i2 : Id) (e1 e2 : element) (q1 q2 : Id) :
  heap b !! i1 = Some e1 ->
  heap b !! i2 = Some e2 ->
  classify (type e1) (type e2) = CircleLine ->
  q1 ≠ q2 -> Id_ ≠ q1 -> Id_ ≠ q2 ->
  exists b',
    Intersection b Id_ (PObject i1) (PObject i2) q1 q2 = Some b'
    /\ kind_at b' Id_ = Some CircleLine
    /\ let s := if line_like (type e1)
                then intersectCircleLine (algebra b) (RObject i2) (RObject i1)
                else intersectCircleLine (algebra b) (RObject i1) (RObject i2) in
       (count s = 1 ->
          is_real b' Id_ = Some true
          /\ coords_of b' q1 = Some (sol1 s) /\ displayed_of b' q1 = Some true
          /\ coords_of b' q2 = Some (UsrCoords 0 0) /\ displayed_of b' q2 = Some false
          /\ visible_of b' q2 = Some false)
       /\ (count s = 2 ->
          is_real b' Id_ = Some true
          /\ coords_of b' q1 = Some (sol1 s) /\ displayed_of b' q1 = Some true
          /\ coords_of b' q2 = Some (sol2 s) /\ displayed_of b' q2 = Some true)
       /\ (count s ≠ 1 -> count s ≠ 2 ->
          is_real b' Id_ = Some false
          /\ coords_of b' q1 = Some (UsrCoords 0 0) /\ displayed_of b' q1 = Some false
          /\ coords_of b' q2 = Some (UsrCoords 0 0) /\ displayed_of b' q2 = Some false).
Proof.
  intros H1 H2 Hcl Hq H1q H2q.
  assert (Hq' : q2 ≠ q1) by congruence.
  destruct (classify_CircleLine _ _ Hcl) as [Hll Hcc].
  pose proof (two_points_first q1 q2 b Hq) as Hf.
  pose proof (two_points_second q1 q2 b) as Hs.
  unfold Intersection. cbn -[two_points addIntersection].
  rewrite H1, H2. cbn -[two_points addIntersection].
  rewrite line_line_test_live, circle_circle_test_live, line_or_arrow_live, Hll, Hcc.
  destruct (line_like (type e1)); cbv zeta;
    repeat case_bool_decide; try lia;
    (eexists; split; [done|];
     split; [unfold kind_at; by rewrite addIntersection_this|];
     unfold is_real, coords_of, displayed_of, visible_of;
     rewrite addIntersection_this, !addIntersection_other by done;
     rewrite ?lookup_upd, ?Hf, ?Hs;
     rewrite ?(decide_True (P := q1 = q1)), ?(decide_True (P := q2 = q2)),
       ?(decide_False (P := q1 = q2)), ?(decide_False (P := q2 = q1)) by done;
     split; [intros; try lia; by repeat split|];
     split; [intros; try lia; by repeat split|];
     intros; try lia; by repeat split).
Qed.

Lemma Intersection_CircleLine_construction_witness :
  exists b',
    Intersection (sample 1 true false) "K" (PObject "l") (PObject "c1") "P" "Q" = Some b'
    /\ kind_at b' "K" = Some CircleLine
    /\ is_real b' "K" = Some true
    /\ displayed_of b' "P" = Some true
    /\ displayed_of b' "Q" = Some false.
Proof.
  destruct (Intersection_CircleLine_construction (sample 1 true false) "K" "l" "c1"
              (plain OBJECT_TYPE_LINE true) (plain OBJECT_TYPE_CIRCLE true) "P" "Q")
    as (b' & H & Hk & Hone & _);
    try discriminate; try reflexivity; try (vm_compute; reflexivity).
  destruct Hone as (Hr & _ & HP & _ & HQ & _); [reflexivity|].
  exists b'. by repeat split.
Defined.

(** X17: in the two circle branches the constructor hands the construct two
    points that are registered on the board, fixed, of type point, and
    descendants of the construct. *)
Theorem Intersection_owns_its_points
    (b : board) (Id_ i1 i2 : Id) (e1 e2 : element) (q1 q2 : Id) :
  heap b !! i1 = Some e1 ->
  heap b !! i2 = Some e2 ->
  line_like (type e1) && line_like (type e2) = false ->
  q1 ≠ q2 -> Id_ ≠ q1 -> Id_ ≠ q2 ->
  exists b' this c,
    Intersection b Id_ (PObject i1) (PObject i2) q1 q2 = Some b'
    /\ heap b' !! Id_ = Some this
    /\ data this = Some c
    /\ p1 c = Some q1 /\ p2 c = Some q2 /\ p c = None
    /\ forall q, q = q1 \/ q = q2 ->
         q ∈ objects b'
         /\ q ∈ descendants this
         /\ (fun e => (fixed e, type e)) <$> heap b' !! q = Some (true, OBJECT_TYPE_POINT).
Proof.
  intros H1 H2 Hll Hq H1q H2q.
  pose proof (two_points_first q1 q2 b Hq) as Hf.
  pose proof (two_points_second q1 q2 b) as Hs.
  unfold Intersection. cbn -[two_points addIntersection].
  rewrite H1, H2. cbn -[two_points addIntersection].
  rewrite line_line_test_live, Hll.
  destruct (circle_circle_test _ _); try destruct (line_or_arrow (Some (type e1)));
    repeat case_bool_decide;
    (eexists _, _, _; split; [done|]; rewrite addIntersection_this;
     split; [done|]; split; [done|]; split; [done|]; split; [done|]; split; [done|];
     intros q [-> | ->];
     (split; [unfold addIntersection, upd; cbn [objects]; rewrite two_points_objects;
              rewrite !elem_of_union, !elem_of_singleton; tauto|];
      split; [unfold set_data, addChild; cbn [descendants]; rewrite Hf, Hs;
              rewrite !elem_of_union, !elem_of_singleton; tauto|];
      rewrite addIntersection_other by done;
      rewrite ?upd_field by done; by rewrite ?Hf, ?Hs)).
Qed.

Lemma Intersection_owns_its_points_witness :
  exists b' this c,
    Intersection (sample 2 true false) "K" (PObject "c1") (PObject "c2") "P" "Q" = Some b'
    /\ heap b' !! "K" = Some this
    /\ data this = Some c
    /\ "P" ∈ descendants this /\ "Q" ∈ descendants this.
Proof.
  destruct (Intersection_owns_its_points (sample 2 true false) "K" "c1" "c2"
              (plain OBJECT_TYPE_CIRCLE true) (plain OBJECT_TYPE_CIRCLE true) "P" "Q")
    as (b' & this & c & H & Ht & Hc & _ & _ & _ & Hall);
    try discriminate; try reflexivity; try (vm_compute; reflexivity).
  exists b', this, c. do 3 (split; [done|]).
  split; [apply (Hall "P"); by left | apply (Hall "Q"); by right].
Defined.

(** X18: a Circle x Circle construct created while its circles do not
    meet (the constructor saw a count other than 1) never shows its points
    through [update]: when the circles later meet, the next [update] makes it
    real and writes the coordinates, but both points, created with
    [visible = false], stay hidden. *)
Theorem Intersection_created_unreal_stays_hidden
    (b : board) (Id_ i1 i2 : Id) (e1 e2 : element) (q1 q2 : Id) (alg' : Algebra) :
  heap b !! i1 = Some e1 ->
  heap b !! i2 = Some e2 ->
  circle_like (type e1) = true ->
  circle_like (type e2) = true ->
  q1 ≠ q2 -> Id_ ≠ q1 -> Id_ ≠ q2 ->
  count (intersectCircleCircle (algebra b) (RObject i1) (RObject i2)) ≠ 1 ->
  count (intersectCircleCircle alg' (RObject i1) (RObject i2)) ≠ 0 ->
  exists b' b'',
    Intersection b Id_ (PObject i1) (PObject i2) q1 q2 = Some b'
    /\ update Id_ (set_algebra alg' (mark_dirty Id_ b')) = Some b''
    /\ is_real b' Id_ = Some false
    /\ is_real b'' Id_ = Some true
    /\ coords_of b'' q1 = Some (sol1 (intersectCircleCircle alg' (RObject i1) (RObject i2)))
    /\ coords_of b'' q2 = Some (sol2 (intersectCircleCircle alg' (RObject i1) (RObject i2)))
    /\ displayed_of b'' q1 = Some false
    /\ displayed_of b'' q2 = Some false.
Proof.
  intros H1 H2 Hc1 Hc2 Hq H1q H2q Hcount Hcount'.
  assert (Hq' : q2 ≠ q1) by congruence.
  pose proof (two_points_first q1 q2 b Hq) as Hf.
  pose proof (two_points_second q1 q2 b) as Hs.
  set (cc := Construct CircleCircle false false (RObject i1) (RObject i2)
               None (Some q1) (Some q2)).
  set (this2 := set_data (Some cc)
                  (addChild q2 (two_points q1 q2 b)
                     (addChild q1 (two_points q1 q2 b)
                        (fresh_this (RObject i1) (RObject i2))))).
  set (b' := addIntersection Id_ this2 (two_points q1 q2 b)).
  assert (Hb' : Intersection b Id_ (PObject i1) (PObject i2) q1 q2 = Some b').
  { unfold Intersection. cbn -[two_points addIntersection].
    rewrite H1, H2. cbn -[two_points addIntersection].
    rewrite (line_line_test_circles _ _ Hc1), (circle_circle_test_circles _ _ Hc1 Hc2).
    by rewrite bool_decide_eq_false_2 by done. }
  set (B := set_algebra alg' (mark_dirty Id_ b')).
  set (s' := intersectCircleCircle alg' (RObject i1) (RObject i2)).
  assert (HxB : heap B !! Id_ = Some (upd_construct (set_needsUpdate true) this2)).
  { unfold B, mark_dirty, upd_this. cbn [set_algebra heap].
    rewrite lookup_upd, decide_True by done. unfold b'.
    by rewrite addIntersection_this. }
  assert (Hq1B : heap B !! q1 = Some placeholder_point).
  { unfold B, mark_dirty, upd_this. cbn [set_algebra heap].
    rewrite lookup_upd, decide_False by done. unfold b'.
    by rewrite addIntersection_other. }
  assert (Hq2B : heap B !! q2 = Some placeholder_point).
  { unfold B, mark_dirty, upd_this. cbn [set_algebra heap].
    rewrite lookup_upd, decide_False by done. unfold b'.
    by rewrite addIntersection_other. }
  set (b'' := upd_this Id_ (set_needsUpdate false)
                (writes_coordinates Id_ q1 q2 false s' B)).
  assert (Hup : update Id_ B = Some b'').
  { rewrite (update_circle_unfold B Id_ _ (set_needsUpdate true cc) s' q1 q2 _ _
               HxB eq_refl eq_refl eq_refl eq_refl eq_refl Hq1B Hq2B).
    by rewrite (bool_decide_eq_false_2 (count s' = 0)) by done. }
  exists b', b''. split; [done|]. split; [done|].
  split; [unfold is_real, b'; by rewrite addIntersection_this|].
  split.
  { unfold b''. rewrite is_real_upd_this_needsUpdate.
    by apply (writes_coordinates_is_real _ _ _ (set_needsUpdate true cc) _ _ HxB). }
  split.
  { unfold b''. rewrite coords_of_upd_this.
    by apply (writes_coordinates_first B Id_ (set_needsUpdate true cc) q1 q2 _ Hq1B). }
  split.
  { unfold b''. rewrite coords_of_upd_this.
    by apply (writes_coordinates_second B Id_ (set_needsUpdate true cc) q1 q2 _ _
                eq_refl Hq1B Hq2B). }
  assert (Hhidden : forall q v, heap (upd q2 (set_coords (sol2 s'))
                                   (upd q1 (set_coords (sol1 s')) B)) !! q
                                = Some (set_coords v placeholder_point) ->
                    displayed_of b'' q = Some false).
  { intros q v Hlook. unfold b'', writes_coordinates, displayed_of, upd_this.
    cbn [negb]. rewrite !upd_field by done.
    rewrite showChild_lookup, Hlook. by case_decide. }
  split.
  - apply (Hhidden q1 (sol1 s')).
    rewrite !lookup_upd, Hq1B.
    by rewrite (decide_False (P := q2 = q1)), (decide_True (P := q1 = q1)) by done.
  - apply (Hhidden q2 (sol2 s')).
    rewrite !lookup_upd, Hq2B.
    by rewrite (decide_True (P := q2 = q2)), (decide_False (P := q1 = q2)) by done.
Qed.

Lemma Intersection_created_unreal_stays_hidden_witness :
  exists b' b'',
    Intersection (sample 0 true false) "K" (PObject "c1") (PObject "c2") "P" "Q" = Some b'
    /\ update "K" (set_algebra (sample_algebra 1) (mark_dirty "K" b')) = Some b''
    /\ is_real b'' "K" = Some true
    /\ coords_of b'' "P" = Some (UsrCoords 3 4)
    /\ displayed_of b'' "P" = Some false.
Proof.
  destruct (Intersection_created_unreal_stays_hidden (sample 0 true false) "K" "c1" "c2"
              (plain OBJECT_TYPE_CIRCLE true) (plain OBJECT_TYPE_CIRCLE true) "P" "Q"
              (sample_algebra 1))
    as (b' & b'' & H & Hu & _ & Hr & HcP & _ & HdP & _).
  { vm_compute. reflexivity. }
  { vm_compute. reflexivity. }
  { reflexivity. }
  { reflexivity. }
  { discriminate. }
  { discriminate. }
  { discriminate. }
  { simpl. discriminate. }
  { simpl. discriminate. }
  exists b', b''. by repeat split.
Defined.

(** X19: a parent handed over as a string never leads to the Circle x
    Circle branch: line 195 reads [.type] of the argument as given, and a
    string has none. *)
Theorem Intersection_by_id_never_CircleCircle
    (b : board) (Id_ : Id) (Intersect1 Intersect2 : parameter) (q1 q2 : Id) (b' : board) :
  (exists s, Intersect1 = PString s) \/ (exists s, Intersect2 = PString s) ->
  Intersection b Id_ Intersect1 Intersect2 q1 q2 = Some b' ->
  kind_at b' Id_ ≠ Some CircleCircle.
Proof.
  intros Hstr H. unfold Intersection in H.
  destruct (empty_or_undefined _ && empty_or_undefined _).
  { injection H as <-. unfold kind_at. cbn [heap]. by rewrite lookup_insert_eq. }
  destruct (reference_type b (GetReferenceFromParameter b Intersect1)) as [t1|];
    cbn [mbind option_bind] in H; [|done].
  destruct (reference_type b (GetReferenceFromParameter b Intersect2)) as [t2|];
    cbn [mbind option_bind] in H; [|done].
  destruct (line_line_test t1 t2).
  { injection H as <-. unfold kind_at. by rewrite addIntersection_this. }
  destruct (parameter_type b Intersect1) as [T1|] eqn:HT1;
    cbn [mbind option_bind] in H; [|done].
  destruct (parameter_type b Intersect2) as [T2|] eqn:HT2;
    cbn [mbind option_bind] in H; [|done].
  assert (Hno : circle_circle_test T1 T2 = false).
  { destruct Hstr as [[s ->]|[s ->]].
    - injection HT1 as <-. by destruct T2 as [[]|].
    - injection HT2 as <-. by destruct T1 as [[]|]. }
  rewrite Hno in H.
  destruct (line_or_arrow t1); repeat case_bool_decide;
    injection H as <-; unfold kind_at; by rewrite addIntersection_this.
Qed.

Lemma Intersection_by_id_never_CircleCircle_witness :
  exists b',
    Intersection (sample 1 true false) "K" (PString "c1") (PObject "c2") "P" "Q" = Some b'
    /\ kind_at b' "K" ≠ Some CircleCircle.
Proof.
  eexists. split; [vm_compute; reflexivity|].
  apply (Intersection_by_id_never_CircleCircle (sample 1 true false) "K"
           (PString "c1") (PObject "c2") "P" "Q").
  - left. by exists "c1".
  - vm_compute. reflexivity.
Defined.

Lemma two_points_other (q1 q2 k : Id) (b : board) :
  k ≠ q1 -> k ≠ q2 -> heap (two_points q1 q2 b) !! k = heap b !! k.
Proof.
  intros H1 H2. unfold two_points, new_Point, upd. cbn [heap algebra objects].
  rewrite lookup_alter_ne, lookup_insert_ne by done.
  by rewrite lookup_alter_ne, lookup_insert_ne by done.
Qed.

(** X20: the constructor leaves the rest of the board alone.  Whatever the
    arguments, if it returns, every object other than the one at [Id] and
    those at the two point ids is exactly as before and registered exactly
    if it was before; nothing is unregistered and the solvers are the same. *)
Theorem Intersection_frame
    (b : board) (Id_ : Id) (Intersect1 Intersect2 : parameter) (q1 q2 : Id) (b' : board) :
  Intersection b Id_ Intersect1 Intersect2 q1 q2 = Some b' ->
  algebra b' = algebra b
  /\ objects b ⊆ objects b'
  /\ forall k, k ≠ Id_ -> k ≠ q1 -> k ≠ q2 ->
       heap b' !! k = heap b !! k /\ (k ∈ objects b' <-> k ∈ objects b).
Proof.
  intros H. unfold Intersection in H.
  destruct (empty_or_undefined _ && empty_or_undefined _).
  { injection H as <-. split; [done|]. split; [done|].
    intros k Hk _ _. cbn [heap objects]. by rewrite lookup_insert_ne. }
  destruct (reference_type b (GetReferenceFromParameter b Intersect1)) as [t1|];
    cbn [mbind option_bind] in H; [|done].
  destruct (reference_type b (GetReferenceFromParameter b Intersect2)) as [t2|];
    cbn [mbind option_bind] in H; [|done].
  destruct (line_line_test t1 t2).
  { injection H as <-. split; [done|].
    split; [unfold addIntersection, upd, new_Point; cbn [objects]; set_solver|].
    intros k Hk Hk1 _. split.
    - rewrite addIntersection_other, lookup_upd, decide_False by done.
      unfold new_Point. cbn [heap]. by rewrite lookup_insert_ne.
    - unfold addIntersection, upd, new_Point. cbn [objects].
      rewrite !elem_of_union, !elem_of_singleton. split; [|tauto].
      intros [?|[?|?]]; congruence. }
  destruct (parameter_type b Intersect1) as [T1|];
    cbn [mbind option_bind] in H; [|done].
  destruct (parameter_type b Intersect2) as [T2|];
    cbn [mbind option_bind] in H; [|done].
  destruct (circle_circle_test T1 T2); try destruct (line_or_arrow t1);
    repeat case_bool_decide; injection H as <-;
    (split; [done|];
     split; [unfold addIntersection, upd; cbn [objects]; rewrite two_points_objects;
             intros y Hy; rewrite !elem_of_union; tauto|];
     intros k Hk Hk1 Hk2; split;
     [rewrite addIntersection_other by done;
      rewrite ?lookup_upd, ?(decide_False (P := q1 = k)), ?(decide_False (P := q2 = k))
        by congruence;
      by apply two_points_other
     |unfold addIntersection, upd; cbn [objects]; rewrite two_points_objects;
      rewrite !elem_of_union, !elem_of_singleton; split; [|tauto];
      intros [?|[?|[?|?]]]; congruence]).
Qed.

Lemma Intersection_frame_witness :
  exists b',
    Intersection (sample 2 true false) "K" (PObject "c1") (PObject "c2") "P" "Q" = Some b'
    /\ heap b' !! "T" = heap (sample 2 true false) !! "T"
    /\ objects (sample 2 true false) ⊆ objects b'.
Proof.
  eexists. split; [vm_compute; reflexivity|].
  destruct (Intersection_frame (sample 2 true false) "K" (PObject "c1") (PObject "c2")
              "P" "Q" _ eq_refl) as (_ & Hsub & Hall).
  split; [apply Hall; discriminate | done].
Defined.

(** X23: Unblock is a refresh of the whole board: [showChild], for whatever
    id, calls [showElement] on every registered object that is visible, not
    an Intersection and carries no other ancestor, whether or not it ever
    hung on the construct that runs it. *)
Theorem showChild_shows_all_unblocked (b : board) (a k : Id) (e : element) :
  heap b !! k = Some e ->
  k ∈ objects b ->
  visible e = true ->
  notExistingParents e ⊆ {[a]} ->
  type e ≠ OBJECT_TYPE_INTERSECTION ->
  exists e',
    heap (showChild a b) !! k = Some e'
    /\ displayed e' = true
    /\ calls e' = ShowElement :: calls e
    /\ notExistingParents e' = ∅.
Proof.
  intros He Hk Hv Hsub Ht.
  assert (Hempty : notExistingParents e ∖ {[a]} = ∅).
  { apply set_eq. intros y. rewrite elem_of_difference, elem_of_empty.
    split; [|done]. intros [Hy Hna]. apply Hna. by apply Hsub. }
  assert (Hyes : shows a e = true).
  { unfold shows. rewrite Hv, Hempty, (bool_decide_eq_true_2 _ Ht).
    by rewrite bool_decide_eq_true_2 by apply size_empty. }
  rewrite showChild_lookup, decide_True, He by done.
  eexists; split; [done|].
  by rewrite show_step_displayed, show_step_calls, show_step_blocks, Hyes, Hempty.
Qed.

Lemma showChild_shows_all_unblocked_witness :
  exists e',
    heap (showChild "J" (sample 0 true false)) !! "c2" = Some e'
    /\ displayed e' = true
    /\ calls e' = [ShowElement]
    /\ notExistingParents e' = ∅.
Proof.
  apply (showChild_shows_all_unblocked (sample 0 true false) "J" "c2"
           (plain OBJECT_TYPE_CIRCLE true)).
  - vm_compute. reflexivity.
  - apply (bool_decide_unpack _). vm_compute. exact I.
  - reflexivity.
  - apply (bool_decide_unpack _). vm_compute. exact I.
  - discriminate.
Defined.

End JXG.
